(** * World Clock for Remote Workers: zone catalog and meeting-overlap engine

    A shallow embedding of [src/utils/timeUtils.js] (zone enumeration, offset
    resolution, continent heuristic, catalog sort) and of the computation
    embedded in [src/components/MeetingPanel.jsx] (the 96 quarter-hour slots
    of the UTC day, the reduction to overlap segments, the three-hour test
    and the earliest qualifying start).

    JavaScript numbers are modelled by [Z]: every number the modelled code
    handles is an integer far below 2^53 in absolute value (epoch
    milliseconds, hours, minutes, slot indices).  Exceptions are modelled by
    the [result] monad below.  The host's [Intl] facility is an interface
    ([Class Intl]); the code is embedded over an arbitrary instance. *)

From Stdlib Require Import ZArith List Bool Lia String Ascii.
From Stdlib Require Import Sorted Permutation OrderedTypeEx DecimalString.
Import ListNotations.
Open Scope string_scope.
Open Scope list_scope.
Open Scope Z_scope.

(** ** Exceptions

    The only exception the modelled code can meet is the [RangeError] that
    [new Intl.DateTimeFormat(locale, { timeZone })] throws for a time zone
    the host does not know.  None of the modelled functions has a
    [try]/[catch], so a thrown exception leaves through every caller. *)

Inductive exn : Type :=
| RangeError (timeZone : string).

Inductive result (A : Type) : Type :=
| Ok (a : A)
| Throw (e : exn).
Arguments Ok {A} a.
Arguments Throw {A} e.

Definition bind {A B : Type} (c : result A) (k : A -> result B) : result B :=
  match c with
  | Ok a => k a
  | Throw e => Throw e
  end.

Notation "x <- c ;; k" := (bind c (fun x => k))
  (at level 61, c at next level, right associativity).

(** [Array.prototype.map] with a callback that may throw: elements are
    visited left to right and the first exception ends the call. *)
Fixpoint mapM {A B : Type} (f : A -> result B) (l : list A) : result (list B) :=
  match l with
  | [] => Ok []
  | a :: l' => b <- f a ;; bs <- mapM f l' ;; Ok (b :: bs)
  end.

(** ** The host platform *)

(** The numeric fields read off [formatToParts] (after [Number(...)]). *)
Record DateTimeParts : Type := mkParts {
  year : Z; month : Z; day : Z; hour : Z; minute : Z; second : Z
}.

Class Intl : Type := {
  (** [Intl.supportedValuesOf('timeZone')]; [None] when
      [typeof Intl.supportedValuesOf !== 'function']. *)
  supportedValuesOf : option (list string);
  (** [new Intl.DateTimeFormat('en-US', { timeZone, hour12: false, ... })
      .formatToParts(new Date(ms))], the wall-clock fields of instant [ms]
      in [timeZone]. *)
  formatToParts : string -> Z -> result DateTimeParts;
  (** [a.localeCompare(b)] *)
  localeCompare : string -> string -> Z
}.

(** ** Calendar arithmetic of [Date]

    [Date.UTC] and the [getUTC*] accessors, on the proleptic Gregorian
    calendar.  Days are counted from 1970-01-01. *)

Definition msPerDay : Z := 86400000.

Definition daysFromCivil (y mo d : Z) : Z :=
  let y' := if mo <=? 2 then y - 1 else y in
  let era := y' / 400 in
  let yoe := y' - era * 400 in
  let doy := (153 * (if mo >? 2 then mo - 3 else mo + 9) + 2) / 5 + d - 1 in
  let doe := yoe * 365 + yoe / 4 - yoe / 100 + doy in
  era * 146097 + doe - 719468.

Definition civilFromDays (z : Z) : Z * Z * Z :=
  let z' := z + 719468 in
  let era := z' / 146097 in
  let doe := z' - era * 146097 in
  let yoe := (doe - doe / 1460 + doe / 36524 - doe / 146096) / 365 in
  let doy := doe - (365 * yoe + yoe / 4 - yoe / 100) in
  let mp := (5 * doy + 2) / 153 in
  let d := doy - (153 * mp + 2) / 5 + 1 in
  let mo := if mp <? 10 then mp + 3 else mp - 9 in
  let y := yoe + era * 400 in
  ((if mo <=? 2 then y + 1 else y), mo, d).

(** [Date.UTC(year, month, date, hours, minutes, seconds)]: the month is
    zero-based and may overflow into the year, a year in 0..99 means
    1900 + year; instants are taken inside the range of [Date], where the
    final time clip changes nothing. *)
Definition DateUTC (y mo d h mi s : Z) : Z :=
  let yr := if (0 <=? y) && (y <=? 99) then 1900 + y else y in
  let dayNo := daysFromCivil (yr + mo / 12) (mo mod 12 + 1) 1 + d - 1 in
  dayNo * msPerDay + (h * 3600000 + mi * 60000 + s * 1000).

Definition getUTCFullYear (ms : Z) : Z := fst (fst (civilFromDays (ms / msPerDay))).
(** zero-based, as in JavaScript *)
Definition getUTCMonth (ms : Z) : Z := snd (fst (civilFromDays (ms / msPerDay))) - 1.
Definition getUTCDate (ms : Z) : Z := snd (civilFromDays (ms / msPerDay)).

(** [Math.round(n / d)] for integers [n] and [d > 0]: the nearest integer,
    halves rounded towards plus infinity. *)
Definition roundDiv (n d : Z) : Z := (2 * n + d) / (2 * d).

(** ** timeUtils.js *)

Module TimeUtils.

Record ZoneEntry : Type := mkZone { tz : string; offset : Z; cont : string }.

Section WithIntl.
Context {intl : Intl}.

Definition getAllTimeZones : list string :=
  match supportedValuesOf with
  | Some zones => zones
  | None =>
      [ "Pacific/Midway"; "America/Adak"; "America/Anchorage"; "America/Los_Angeles";
        "America/Denver"; "America/Chicago"; "America/New_York"; "Atlantic/Azores";
        "Europe/London"; "Europe/Berlin"; "Europe/Moscow"; "Asia/Dubai";
        "Asia/Kolkata"; "Asia/Singapore"; "Asia/Tokyo"; "Australia/Sydney" ]
  end.

Definition tzOffsetMinutes (timeZone : string) (now : Z) : result Z :=
  p <- formatToParts timeZone now ;;
  let utcMs := DateUTC (year p) (month p - 1) (day p) (hour p) (minute p) (second p) in
  let diffMin := roundDiv (utcMs - now) 60000 in
  Ok diffMin.

(** [s.includes(k)] *)
Fixpoint includes (k s : string) : bool :=
  prefix k s ||
  match s with
  | EmptyString => false
  | String _ s' => includes k s'
  end.

Definition continentOf (zone : string) : string :=
  if prefix "Africa/" zone then "Africa"
  else if prefix "Antarctica/" zone then "Antarctica"
  else if prefix "Asia/" zone then "Asia"
  else if prefix "Australia/" zone || prefix "Pacific/" zone then "Australia"
  else if prefix "Europe/" zone then "Europe"
  else if prefix "America/" zone then
    let south := [ "Argentina"; "Sao_Paulo"; "Bogota"; "Lima"; "Caracas";
                   "Santiago"; "Montevideo"; "Asuncion"; "La_Paz" ] in
    if existsb (fun k => includes k zone) south then "South America"
    else "North America"
  else "Other".

(** The comparator handed to [arr.sort]:
    [(a, b) => a.offset - b.offset || a.tz.localeCompare(b.tz)]. *)
Definition compareZones (a b : ZoneEntry) : Z :=
  let d := offset a - offset b in
  if d =? 0 then localeCompare (tz a) (tz b) else d.

(** [Array.prototype.sort(cmp)] is stable (ECMAScript 2019); it is modelled
    by the stable insertion sort.  [insertSorted x l] puts [x] in front of
    the first element that does not compare below it. *)
Fixpoint insertSorted {A : Type} (cmp : A -> A -> Z) (x : A) (l : list A) : list A :=
  match l with
  | [] => [x]
  | y :: l' => if cmp x y <=? 0 then x :: y :: l' else y :: insertSorted cmp x l'
  end.

Definition sort {A : Type} (cmp : A -> A -> Z) (l : list A) : list A :=
  fold_right (insertSorted cmp) [] l.

Definition buildZonesList (now : Z) : result (list ZoneEntry) :=
  let zones := getAllTimeZones in
  arr <- mapM (fun zone =>
                 off <- tzOffsetMinutes zone now ;;
                 Ok {| tz := zone; offset := off; cont := continentOf zone |})
              zones ;;
  Ok (sort compareZones arr).

End WithIntl.
End TimeUtils.

(** ** MeetingPanel.jsx *)

Module MeetingPanel.

(** The pair [{ h, m }] returned by [localHourMinuteFromUtcMs]. *)
Record HM : Type := mkHM { h : Z; m : Z }.

Record Slot : Type := mkSlot {
  i : Z;
  slotStart : Z;
  slotEnd : Z;
  localLM : HM;
  otherLM : HM;
  localWork : bool;
  otherWork : bool;
  overlap : bool
}.

(** An entry [{ startIdx, endIdx }] of [overlapSegments]. *)
Record Segment : Type := mkSeg { startIdx : Z; endIdx : Z }.

(** What the component computes before it renders. *)
Record Panel : Type := mkPanel {
  panelDayStart : Z;
  panelSlots : list Slot;
  panelSegments : list Segment;
  panelHasFull3h : bool;
  panelEarliestFull3h : option Z
}.

(** The membership test written twice in the slot loop, once per side:
    [(lm.h >= workStart && lm.h < workEnd) ||
     (lm.h === workEnd && lm.m === 0 && workEnd === 24)]. *)
Definition working (lm : HM) (workStart workEnd : Z) : bool :=
  ((h lm >=? workStart) && (h lm <? workEnd)) ||
  ((h lm =? workEnd) && (m lm =? 0) && (workEnd =? 24)).

(** The body of [slots.forEach] in [overlapSegments], on the pair of the
    closed segments [segs] and the open one [cur] ([None] is [null]). *)
Definition segmentStep (st : list Segment * option Segment) (s : Slot)
  : list Segment * option Segment :=
  let '(segs, cur) := st in
  if overlap s then
    match cur with
    | None => (segs, Some {| startIdx := i s; endIdx := i s |})
    | Some c => (segs, Some {| startIdx := startIdx c; endIdx := i s |})
    end
  else
    match cur with
    | Some c => (segs ++ [c], None)
    | None => (segs, None)
    end.

Definition overlapSegments (slots : list Slot) : list Segment :=
  let '(segs, cur) := fold_left segmentStep slots ([], None) in
  match cur with
  | Some c => segs ++ [c]
  | None => segs
  end.

Definition hasFull3h (overlapSegments : list Segment) : bool :=
  existsb (fun s => (endIdx s - startIdx s + 1) >=? 3 * 4) overlapSegments.

Fixpoint earliestFull3h (utcDayStart : Z) (overlapSegments : list Segment)
  : option Z :=
  match overlapSegments with
  | [] => None
  | seg :: rest =>
      if (endIdx seg - startIdx seg + 1) >=? 12 then
        let startMs := utcDayStart + startIdx seg * 15 * 60 * 1000 in
        Some startMs
      else earliestFull3h utcDayStart rest
  end.

Section WithIntl.
Context {intl : Intl}.

Definition localHourMinuteFromUtcMs (utcMs : Z) (zone : string) : result HM :=
  parts <- formatToParts zone utcMs ;;
  Ok {| h := hour parts; m := minute parts |}.

(** One turn of the loop [for (let i = 0; i < 96; i++)]: the slot pushed
    for index [idx]. *)
Definition slotAt (utcDayStart : Z) (zone localZone : string)
           (workStart workEnd : Z) (idx : Z) : result Slot :=
  let slotStart := utcDayStart + idx * 15 * 60 * 1000 in
  let slotEnd := slotStart + 15 * 60 * 1000 in
  localLM <- localHourMinuteFromUtcMs slotStart localZone ;;
  otherLM <- localHourMinuteFromUtcMs slotStart zone ;;
  let localWork := working localLM workStart workEnd in
  let otherWork := working otherLM workStart workEnd in
  let overlap := localWork && otherWork in
  Ok (mkSlot idx slotStart slotEnd localLM otherLM localWork otherWork overlap).

(** The loop itself; [fuel] bounds the number of turns, and 96 turns are
    what the loop takes. *)
Fixpoint slotsLoop (utcDayStart : Z) (zone localZone : string)
         (workStart workEnd : Z) (fuel : nat) (idx : Z) (arr : list Slot)
  : result (list Slot) :=
  match fuel with
  | O => Ok arr
  | S fuel' =>
      if idx <? 96 then
        s <- slotAt utcDayStart zone localZone workStart workEnd idx ;;
        slotsLoop utcDayStart zone localZone workStart workEnd fuel' (idx + 1)
                  (arr ++ [s])
      else Ok arr
  end.

Definition slots (utcDayStart : Z) (zone localZone : string)
           (workStart workEnd : Z) : result (list Slot) :=
  slotsLoop utcDayStart zone localZone workStart workEnd 96 0 [].

(** [Date.UTC(now.getUTCFullYear(), now.getUTCMonth(), now.getUTCDate(), 0, 0, 0)] *)
Definition utcDayStartOf (now : Z) : Z :=
  DateUTC (getUTCFullYear now) (getUTCMonth now) (getUTCDate now) 0 0 0.

(** The component, up to rendering; [now] is the value of [new Date()]. *)
Definition MeetingPanel (zone localZone : string) (workStart workEnd : Z)
           (now : Z) : result Panel :=
  let utcDayStart := utcDayStartOf now in
  slots <- slots utcDayStart zone localZone workStart workEnd ;;
  let overlapSegments := overlapSegments slots in
  Ok {| panelDayStart := utcDayStart;
        panelSlots := slots;
        panelSegments := overlapSegments;
        panelHasFull3h := hasFull3h overlapSegments;
        panelEarliestFull3h := earliestFull3h utcDayStart overlapSegments |}.

End WithIntl.
End MeetingPanel.

(** What the panel shows of these values. *)
Module MeetingPanelView.

(** The sentence chosen by [hasFull3h ? ... : ...]. *)
Definition headline (hasFull3h : bool) : string :=
  if hasFull3h
  then "There is at least one full 3-hour overlap in this UTC day. Earliest start:"
  else "No full 3-hour overlap in the next 24 hours. Here is the best overlap visualization.".

(** Whether [{earliestFull3h && (...)}] renders the two start times: the
    guard is the truthiness of a value that is [null] or a number, and the
    number 0 is falsy. *)
Definition rendersEarliestStart (earliestFull3h : option Z) : bool :=
  match earliestFull3h with
  | None => false
  | Some startMs => negb (startMs =? 0)
  end.

End MeetingPanelView.

(** ** timeUtils.js, [localToUtcMs] *)

Module TimeUtilsLocal.
Section WithHost.
Context {intl : Intl}.

(** [new Date(year, monthIndex, day, hour, minute).getTime()]: the instant
    at which the host's own zone reads these fields. *)
Variable newDate : Z -> Z -> Z -> Z -> Z -> Z.

Definition localToUtcMs (zone : string) (year month day hour minute : Z)
  : result Z :=
  let localUtcMs := DateUTC year (month - 1) day hour minute 0 in
  offsetMin <- TimeUtils.tzOffsetMinutes zone (newDate year (month - 1) day hour minute) ;;
  Ok (localUtcMs - offsetMin * 60000).

End WithHost.
End TimeUtilsLocal.

(** ** App.jsx *)

Module App.

(** [String.prototype.toLowerCase] and [String.prototype.trim] belong to
    the host. *)
Class JSString : Type := {
  toLowerCase : string -> string;
  trim : string -> string
}.

(** [array.indexOf(x)] on an array of strings; -1 when absent. *)
Fixpoint indexOf (x : string) (l : list string) : Z :=
  match l with
  | [] => -1
  | y :: l' =>
      if (y =? x)%string then 0
      else let r := indexOf x l' in if r <? 0 then -1 else r + 1
  end.

(** [array.includes(x)] *)
Definition arrayIncludes (l : list string) (x : string) : bool :=
  existsb (fun y => (y =? x)%string) l.

(** [copy.splice(idx, 1)] for an index inside the array. *)
Definition splice1 {A : Type} (idx : nat) (l : list A) : list A :=
  firstn idx l ++ skipn (S idx) l.

(** The updater passed to [setPinned] by [togglePin(zone)]. *)
Definition togglePin (zone : string) (prev : list string) : list string :=
  let copy := prev in
  let idx := indexOf zone copy in
  if idx >=? 0 then splice1 (Z.to_nat idx) copy
  else copy ++ [zone].

(** [s.replace(pattern, replacement)] with a string pattern: the first
    occurrence only. *)
Fixpoint dropChars (n : nat) (s : string) : string :=
  match n, s with
  | O, _ => s
  | S n', String _ s' => dropChars n' s'
  | S _, EmptyString => EmptyString
  end.

Fixpoint replaceFirst (pattern replacement s : string) : string :=
  if prefix pattern s then (replacement ++ dropChars (String.length pattern) s)%string
  else match s with
       | EmptyString => EmptyString
       | String c s' => String c (replaceFirst pattern replacement s')
       end.

Definition continents : list string :=
  [ "All"; "Africa"; "Antarctica"; "Asia"; "Australia"; "Europe";
    "North America"; "South America" ].

Section WithStrings.
Context {js : JSString}.

(** The [useMemo] body computing [filteredZones]. *)
Definition filteredZones (zones : list TimeUtils.ZoneEntry) (pinned : list string)
           (filterContinent query : string) : list TimeUtils.ZoneEntry :=
  let q := toLowerCase (trim query) in
  let byContinent :=
    filter (fun z => if (toLowerCase filterContinent =? "all")%string then true
                     else (TimeUtils.cont z =? filterContinent)%string) zones in
  let byQuery :=
    if (q =? "")%string then byContinent
    else filter (fun z =>
                   TimeUtils.includes q (toLowerCase (TimeUtils.tz z)) ||
                   TimeUtils.includes q
                     (toLowerCase (replaceFirst "_" " " (TimeUtils.tz z))))
                byContinent in
  let pinnedItems := filter (fun z => arrayIncludes pinned (TimeUtils.tz z)) byQuery in
  let others := filter (fun z => negb (arrayIncludes pinned (TimeUtils.tz z))) byQuery in
  pinnedItems ++ others.

End WithStrings.
End App.

(** ** ZoneCard.jsx *)

Module ZoneCard.

Record Parts : Type := mkCardParts {
  hour24 : Z; hour12 : Z; minute : Z; second : Z; isPM : bool; tzName : string
}.

(** The 12-hour reading computed in [getParts]; [%] is the remainder of
    JavaScript. *)
Definition h12Of (h : Z) : Z :=
  if Z.rem h 12 =? 0 then 12 else Z.rem h 12.

Section WithIntl.
Context {intl : Intl}.

(** [map.timeZoneName || ''], the short zone name the host prints. *)
Variable timeZoneName : string -> Z -> string.

Definition getParts (date : Z) (zone : string) : result Parts :=
  parts <- formatToParts zone date ;;
  let '(mkParts _ _ _ h m s) := parts in
  let h12 := h12Of h in
  Ok {| hour24 := h; hour12 := h12; minute := m; second := s;
        isPM := h >=? 12; tzName := timeZoneName zone date |}.

End WithIntl.

(** The values set by the minute-by-minute [update]: day or night, and the
    working-hour highlight. *)
Definition isDay (h : Z) : bool := (h >=? 6) && (h <? 18).

Definition timeOfDay (h : Z) : string := if isDay h then "day" else "night".

Definition isWorkingHour (h : Z) : bool := (h >=? 9) && (h <? 17).

(** [String(n)] for an integer. *)
Definition stringOfZ (n : Z) : string := NilZero.string_of_int (Z.to_int n).

Fixpoint repeatChar (c : ascii) (n : nat) : string :=
  match n with
  | O => EmptyString
  | S n' => String c (repeatChar c n')
  end.

(** [s.padStart(n, c)] with a one-character filler. *)
Definition padStart (n : nat) (c : ascii) (s : string) : string :=
  (repeatChar c (n - String.length s) ++ s)%string.

(** The subtitle of the card:
    [UTC{offset >= 0 ? '+' : ''}{Math.floor(Math.abs(offset) / 60)}:
     {String(Math.abs(offset) % 60).padStart(2, '0')}]. *)
Definition offsetLabel (offset : Z) : string :=
  ("UTC" ++ (if offset >=? 0 then "+" else "") ++
   stringOfZ (Z.abs offset / 60) ++ ":" ++
   padStart 2 "0" (stringOfZ (Z.rem (Z.abs offset) 60)))%string.

End ZoneCard.

(** ** A host with fixed offsets

    A concrete [Intl] used to run the code: a handful of zones, each at a
    constant offset from UTC, hours counted 0..23, and strings compared by
    code unit. *)

Module FixedHost.

Definition offsetOf (zone : string) : option Z :=
  if (zone =? "UTC")%string then Some 0
  else if (zone =? "Europe/London")%string then Some 0
  else if (zone =? "Africa/Abidjan")%string then Some 0
  else if (zone =? "Asia/Kolkata")%string then Some 330
  else if (zone =? "Asia/Tokyo")%string then Some 540
  else if (zone =? "Pacific/Auckland")%string then Some 720
  else if (zone =? "America/Bogota")%string then Some (-300)
  else None.

Definition wallClock (zone : string) (ms : Z) : result DateTimeParts :=
  match offsetOf zone with
  | None => Throw (RangeError zone)
  | Some off =>
      let t := ms + off * 60000 in
      let '(y, mo, d) := civilFromDays (t / msPerDay) in
      Ok {| year := y; month := mo; day := d;
            hour := (t / 3600000) mod 24;
            minute := (t / 60000) mod 60;
            second := (t / 1000) mod 60 |}
  end.

Definition codeUnitCompare (a b : string) : Z :=
  match String.compare a b with
  | Lt => -1
  | Eq => 0
  | Gt => 1
  end.

Definition host (zones : option (list string)) : Intl :=
  {| supportedValuesOf := zones;
     formatToParts := wallClock;
     localeCompare := codeUnitCompare |}.

(** 2025-11-25 06:00:00 UTC *)
Definition sampleNow : Z := 1764050400000.

(** The first slot of [fullDayPanel]: midnight in London, 9:00 in Tokyo. *)
Definition midnightSlot : MeetingPanel.Slot :=
  MeetingPanel.mkSlot 0 1764028800000 1764029700000
                      (MeetingPanel.mkHM 0 0) (MeetingPanel.mkHM 9 0) true true true.

(** Two enumerations: one this host resolves entirely, one with an id it
    does not know. *)
Definition zonesKnown : list string :=
  [ "Asia/Tokyo"; "UTC"; "Europe/London"; "America/Bogota"; "Africa/Abidjan" ].
Definition zonesWithUnknown : list string :=
  [ "Asia/Kolkata"; "Mars/Olympus_Mons"; "Europe/London" ].

(** The slots of that day for UTC against Asia/Kolkata, both working 9 to 17. *)
Definition sampleSlots : list MeetingPanel.Slot :=
  match @MeetingPanel.slots (host None) (MeetingPanel.utcDayStartOf sampleNow)
                            "UTC" "Asia/Kolkata" 9 17 with
  | Ok ss => ss
  | Throw _ => []
  end.

Definition panelOr (r : result MeetingPanel.Panel) : MeetingPanel.Panel :=
  match r with
  | Ok p => p
  | Throw _ => MeetingPanel.mkPanel 0 [] [] false None
  end.

(** UTC against Asia/Kolkata, both working 9 to 17: two and a half hours. *)
Definition samplePanel : MeetingPanel.Panel :=
  panelOr (@MeetingPanel.MeetingPanel (host None) "UTC" "Asia/Kolkata" 9 17 sampleNow).

(** Asia/Tokyo against Europe/London, both working 0 to 24: the whole day. *)
Definition fullDayPanel : MeetingPanel.Panel :=
  panelOr (@MeetingPanel.MeetingPanel (host None) "Asia/Tokyo" "Europe/London" 0 24
                                      sampleNow).

End FixedHost.

(** ** Strings of ASCII characters

    A concrete [App.JSString] used to run the filter: lower-casing of the
    letters A..Z and trimming of spaces, which is what the host's functions
    do on strings of printable ASCII characters. *)

Module AsciiStrings.

Definition lowerChar (c : ascii) : ascii :=
  let n := nat_of_ascii c in
  if ((65 <=? n)%nat && (n <=? 90)%nat)%bool then ascii_of_nat (n + 32) else c.

Fixpoint lower (s : string) : string :=
  match s with
  | EmptyString => EmptyString
  | String c s' => String (lowerChar c) (lower s')
  end.

Fixpoint trimStart (s : string) : string :=
  match s with
  | String c s' => if Ascii.eqb c " " then trimStart s' else s
  | EmptyString => EmptyString
  end.

Fixpoint rev (acc s : string) : string :=
  match s with
  | EmptyString => acc
  | String c s' => rev (String c acc) s'
  end.

Definition trimBoth (s : string) : string :=
  rev EmptyString (trimStart (rev EmptyString (trimStart s))).

Definition strings : App.JSString :=
  {| App.toLowerCase := lower; App.trim := trimBoth |}.

(** A catalog of five zones, as [buildZonesList] returns it on the
    fixed-offset host. *)
Definition sampleCatalog : list TimeUtils.ZoneEntry :=
  match @TimeUtils.buildZonesList (FixedHost.host (Some FixedHost.zonesKnown))
                                  FixedHost.sampleNow with
  | Ok zones => zones
  | Throw _ => []
  end.

End AsciiStrings.

(** ** Vocabulary of the properties *)

Import MeetingPanel TimeUtils.

(** The host knows [zone]: formatting in it never throws. *)
Definition knownZone {intl : Intl} (zone : string) : Prop :=
  forall ms, exists p, formatToParts zone ms = Ok p.

(** A slot sequence carries its own positions in the field [i], as the
    sequence built by the slot loop does. *)
Definition indexed (ss : list Slot) : Prop :=
  forall k s, nth_error ss k = Some s -> i s = Z.of_nat k.

(** The overlap flag of the slot at position [k]; [false] outside the
    sequence. *)
Definition flagAt (ss : list Slot) (k : Z) : bool :=
  if k <? 0 then false
  else match nth_error ss (Z.to_nat k) with
       | Some s => overlap s
       | None => false
       end.

(** Slot index [k] lies in segment [g]. *)
Definition covers (g : Segment) (k : Z) : Prop :=
  startIdx g <= k <= endIdx g.

(** Segment [a] ends before segment [b] starts, and a slot that does not
    overlap lies strictly between the two. *)
Definition apart (ss : list Slot) (a b : Segment) : Prop :=
  exists j, endIdx a < j < startIdx b /\
            0 <= j < Z.of_nat (List.length ss) /\ flagAt ss j = false.

(** Duration of a segment in minutes, and the 180-minute threshold. *)
Definition durationMinutes (g : Segment) : Z :=
  (endIdx g - startIdx g + 1) * 15.

Definition qualifies (g : Segment) : Prop := durationMinutes g >= 180.

(** The half-open membership test of the specification,
    [startHour <= hour < endHour], to be compared with [working]. *)
Definition halfOpenTest (startHour endHour hour : Z) : bool :=
  (startHour <=? hour) && (hour <? endHour).

(** The order of the catalog: by offset, then by zone id in the host's
    string order. *)
Definition catalogLe {intl : Intl} (a b : ZoneEntry) : Prop :=
  offset a < offset b \/
  (offset a = offset b /\ localeCompare (tz a) (tz b) <= 0).

(** The wall-clock time of instant [ms] at a constant offset of [off]
    minutes from UTC, on a clock whose hours run 0..23; [fixedOffset zone off]
    says the host reads [zone] so at every instant. *)
Definition hmAtOffset (off ms : Z) : HM :=
  {| h := ((ms + off * 60000) / 3600000) mod 24;
     m := ((ms + off * 60000) / 60000) mod 60 |}.

Definition fixedOffset {intl : Intl} (zone : string) (off : Z) : Prop :=
  forall ms, localHourMinuteFromUtcMs ms zone = Ok (hmAtOffset off ms).

(** Sum of the durations of a list of segments, in minutes. *)
Definition totalMinutes (segs : list Segment) : Z :=
  fold_right (fun g acc => durationMinutes g + acc) 0 segs.


(** The host's string comparison is a total order on zone ids: the sign of
    [a.localeCompare(b)] flips with the arguments, zero means the same id,
    and "not above" is transitive. *)
Record collationOrder {intl : Intl} : Prop := {
  collation_flip : forall a b, localeCompare a b > 0 <-> localeCompare b a < 0;
  collation_zero : forall a b, localeCompare a b = 0 <-> a = b;
  collation_trans : forall a b c,
      localeCompare a b <= 0 -> localeCompare b c <= 0 -> localeCompare a c <= 0
}.





(** Segment [a] ends at least one slot before segment [b] starts. *)
Definition gapBefore (a b : Segment) : Prop := endIdx a + 1 < startIdx b.

(** The state of the segment scan after the slots of index below [n],
    against the flags [f]: [closedRun] for a segment already pushed,
    [openRun] for the segment still growing (or its absence). *)
Definition closedRun (f : Z -> bool) (n : Z) (g : Segment) : Prop :=
  0 <= startIdx g <= endIdx g /\ endIdx g + 1 < n /\
  (forall k, covers g k -> f k = true) /\
  f (endIdx g + 1) = false /\
  (startIdx g = 0 \/ f (startIdx g - 1) = false).

Definition openRun (f : Z -> bool) (n : Z) (segs : list Segment)
           (cur : option Segment) : Prop :=
  match cur with
  | Some c =>
      0 <= startIdx c <= endIdx c /\ endIdx c = n - 1 /\
      (forall k, covers c k -> f k = true) /\
      (startIdx c = 0 \/ f (startIdx c - 1) = false) /\
      Forall (fun g => gapBefore g c) segs
  | None => n = 0 \/ f (n - 1) = false
  end.

Record scanInv (f : Z -> bool) (n : Z)
       (st : list Segment * option Segment) : Prop := {
  inv_closed : Forall (closedRun f n) (fst st);
  inv_sorted : StronglySorted gapBefore (fst st);
  inv_open : openRun f n (fst st) (snd st);
  inv_cover : forall k, 0 <= k < n -> f k = true ->
      (exists g, In g (fst st) /\ covers g k) \/
      (exists c, snd st = Some c /\ covers c k)
}.

(** [g] is a maximal run of flagged slots of [ss]: it lies inside the
    sequence, every slot it covers is flagged, and the positions just before
    and just after it are not.  [maximalRuns ss segs]: [segs] lists the
    maximal runs of [ss], in ascending order. *)
Definition isRun (ss : list Slot) (g : Segment) : Prop :=
  0 <= startIdx g <= endIdx g /\ endIdx g < Z.of_nat (List.length ss) /\
  (forall k, covers g k -> flagAt ss k = true) /\
  flagAt ss (startIdx g - 1) = false /\
  flagAt ss (endIdx g + 1) = false.

Record maximalRuns (ss : list Slot) (segs : list Segment) : Prop := {
  runs_sorted : StronglySorted gapBefore segs;
  runs_each : Forall (isRun ss) segs;
  runs_cover : forall k, flagAt ss k = true -> exists g, In g segs /\ covers g k
}.

(** The wall-clock fields of instant [t] read as UTC, on a clock whose hours
    run 0..23; [wallFields24] is the same reading on a clock that prints the
    first hour of the day as hour 24. *)
Definition wallFields (t : Z) : DateTimeParts :=
  let '(y, mo, d) := civilFromDays (t / msPerDay) in
  {| year := y; month := mo; day := d;
     hour := (t / 3600000) mod 24;
     minute := (t / 60000) mod 60;
     second := (t / 1000) mod 60 |}.

Definition wallFields24 (t : Z) : DateTimeParts :=
  let p := wallFields t in
  {| year := year p; month := month p; day := day p;
     hour := if hour p =? 0 then 24 else hour p;
     minute := minute p; second := second p |}.

(** The days [Date.UTC] adds to a date of year [y] and month [mo] by
    reading a year in 0..99 as 1900 + year. *)
Definition twoDigitYearShift (y mo : Z) : Z :=
  if (0 <=? y) && (y <=? 99)
  then daysFromCivil (1900 + y) mo 1 - daysFromCivil y mo 1
  else 0.

(** Number of slots whose overlap flag is set. *)
Definition overlapCount (ss : list Slot) : Z :=
  Z.of_nat (List.length (filter overlap ss)).

(** The state of the segment scan counts the flagged slots seen so far. *)
Definition scanCount (n cnt : Z) (st : list Segment * option Segment) : Prop :=
  totalMinutes (fst st) +
  match snd st with Some c => durationMinutes c | None => 0 end = 15 * cnt /\
  match snd st with Some c => endIdx c = n - 1 | None => True end.

(** The test of the search box on one zone id, for a non-empty lower-cased
    query [q]. *)
Definition matchesQuery {js : App.JSString} (q : string) (z : ZoneEntry) : bool :=
  includes q (App.toLowerCase (tz z)) ||
  includes q (App.toLowerCase (App.replaceFirst "_" " " (tz z))).

(** The tokens by which [continentOf] tells South America, and the labels
    it can return. *)
Definition southTokens : list string :=
  [ "Argentina"; "Sao_Paulo"; "Bogota"; "Lima"; "Caracas";
    "Santiago"; "Montevideo"; "Asuncion"; "La_Paz" ].

Definition continentLabels : list string :=
  [ "Africa"; "Antarctica"; "Asia"; "Australia"; "Europe";
    "North America"; "South America"; "Other" ].

(** A host clock in UTC, to run [localToUtcMs]. *)
Definition newDateUTC (y mo d hh mi : Z) : Z := DateUTC y mo d hh mi 0.

(** The slot of the same index when the two zones are passed the other way
    round. *)
Definition swapSlot (s : Slot) : Slot :=
  mkSlot (i s) (slotStart s) (slotEnd s) (otherLM s) (localLM s)
         (otherWork s) (localWork s) (otherWork s && localWork s).

(** A host that reads every zone of [FixedHost] at its constant offset, on a
    clock that prints the first hour of the day as hour 24. *)
Module Host24.

Definition wallClock24 (zone : string) (ms : Z) : result DateTimeParts :=
  match FixedHost.offsetOf zone with
  | None => Throw (RangeError zone)
  | Some off => Ok (wallFields24 (ms + off * 60000))
  end.

Definition host : Intl :=
  {| supportedValuesOf := None;
     formatToParts := wallClock24;
     localeCompare := FixedHost.codeUnitCompare |}.

(** Asia/Tokyo against Europe/London, both working 0 to 24, on this host. *)
Definition fullDayPanel24 : Panel :=
  FixedHost.panelOr (@MeetingPanel.MeetingPanel host "Asia/Tokyo" "Europe/London" 0 24
                                                FixedHost.sampleNow).

End Host24.

(** ** The error monad *)

Lemma bind_Ok {A B : Type} (c : result A) (k : A -> result B) (b : B) :
  bind c k = Ok b -> exists a, c = Ok a /\ k a = Ok b.
Proof.
  destruct c as [a|e]; simpl; intros Hb; [eauto | discriminate].
Qed.

Lemma bind_Throw {A B : Type} (c : result A) (k : A -> result B) (e : exn) :
  bind c k = Throw e -> c = Throw e \/ exists a, c = Ok a /\ k a = Throw e.
Proof.
  destruct c as [a|e']; simpl; intros Hb; [right; eauto | left; congruence].
Qed.

Ltac inv_bind H :=
  let a := fresh "a" in
  let Ha := fresh "Ha" in
  apply bind_Ok in H; destruct H as (a & Ha & H).

(** ** The calendar

    Converting a day number to a civil date and back gives the day number,
    so the reference day starts at the UTC midnight at or before [now]. *)

Lemma yearOfEra_bounds doe :
  0 <= doe <= 146096 ->
  let yoe := (doe - doe / 1460 + doe / 36524 - doe / 146096) / 365 in
  0 <= yoe <= 399 /\ 0 <= doe - (365 * yoe + yoe / 4 - yoe / 100) <= 365.
Proof.
  intros H yoe. subst yoe.
  Z.to_euclidean_division_equations; lia.
Qed.

Lemma civilFromDays_fields z :
  exists era yoe mp d,
    civilFromDays z =
      ((if (if mp <? 10 then mp + 3 else mp - 9) <=? 2
        then yoe + era * 400 + 1 else yoe + era * 400),
       (if mp <? 10 then mp + 3 else mp - 9), d) /\
    era = (z + 719468) / 146097 /\
    0 <= yoe <= 399 /\ 0 <= mp <= 11 /\ 1 <= d <= 31 /\
    z = era * 146097 + (yoe * 365 + yoe / 4 - yoe / 100 + ((153 * mp + 2) / 5 + d - 1))
        - 719468.
Proof.
  set (z' := z + 719468). set (era := z' / 146097).
  set (doe := z' - era * 146097).
  assert (Hdoe : 0 <= doe <= 146096).
  { subst doe era. pose proof (Z.mod_pos_bound z' 146097 ltac:(lia)).
    rewrite Z.mod_eq in H by lia. lia. }
  destruct (yearOfEra_bounds doe Hdoe) as [Hyoe Hdoy].
  set (yoe := (doe - doe / 1460 + doe / 36524 - doe / 146096) / 365) in *.
  set (doy := doe - (365 * yoe + yoe / 4 - yoe / 100)) in *.
  set (mp := (5 * doy + 2) / 153).
  exists era, yoe, mp, (doy - (153 * mp + 2) / 5 + 1).
  assert (Hmp : 0 <= mp <= 11).
  { subst mp. split; [apply Z.div_pos; lia|].
    assert ((5 * doy + 2) / 153 < 12) by (apply Z.div_lt_upper_bound; lia). lia. }
  split; [reflexivity|]. split; [reflexivity|]. split; [exact Hyoe|].
  split; [exact Hmp|]. split.
  - subst mp. Z.to_euclidean_division_equations; lia.
  - subst doy doe. lia.
Qed.

Lemma daysFromCivil_civilFromDays z :
  let '(y, mo, d) := civilFromDays z in
  daysFromCivil y mo d = z /\ 1 <= mo <= 12 /\ 1 <= d <= 31 /\
  (0 <= z -> 1600 <= y).
Proof.
  destruct (civilFromDays_fields z) as (era & yoe & mp & d & -> & Hera & Hyoe & Hmp & Hd & Hz).
  set (mo := if mp <? 10 then mp + 3 else mp - 9).
  assert (Hmo : 1 <= mo <= 12 /\ (if mo >? 2 then mo - 3 else mo + 9) = mp /\
                ((mo <=? 2) = true <-> 10 <= mp)).
  { subst mo. destruct (Z.ltb_spec mp 10).
    - destruct (Z.gtb_spec (mp + 3) 2); destruct (Z.leb_spec (mp + 3) 2);
        try lia; repeat split; try lia; try discriminate.
    - destruct (Z.gtb_spec (mp - 9) 2); destruct (Z.leb_spec (mp - 9) 2);
        try lia; repeat split; try lia; try discriminate. }
  destruct Hmo as (Hmo1 & Hmo2 & Hmo3).
  split; [|split; [exact Hmo1 | split; [exact Hd|]]].
  - unfold daysFromCivil. rewrite Hmo2.
    assert (Hy : (if mo <=? 2
                  then (if mo <=? 2 then yoe + era * 400 + 1 else yoe + era * 400) - 1
                  else (if mo <=? 2 then yoe + era * 400 + 1 else yoe + era * 400))
                 = yoe + era * 400) by (destruct (mo <=? 2); lia).
    rewrite Hy.
    assert (Hq : (yoe + era * 400) / 400 = era).
    { rewrite Z.div_add by lia. rewrite Z.div_small by lia. lia. }
    rewrite Hq. replace (yoe + era * 400 - era * 400) with yoe by lia. lia.
  - intros Hz0. assert (4 <= era).
    { subst era. apply Z.div_le_lower_bound; lia. }
    destruct (mo <=? 2); lia.
Qed.

(** For instants from 1970 on, the reference day starts at the last UTC
    midnight. *)
Lemma utcDayStartOf_floor now :
  0 <= now -> utcDayStartOf now = now / msPerDay * msPerDay.
Proof.
  intros Hnow. unfold utcDayStartOf, getUTCFullYear, getUTCMonth, getUTCDate.
  pose proof (daysFromCivil_civilFromDays (now / msPerDay)) as H.
  destruct (civilFromDays (now / msPerDay)) as [[y mo] d]. simpl fst; simpl snd.
  destruct H as (Hrt & Hmo & Hd & Hy).
  assert (0 <= now / msPerDay) by (apply Z.div_pos; unfold msPerDay; lia).
  specialize (Hy H). unfold DateUTC.
  assert (Hyr : (if (0 <=? y) && (y <=? 99) then 1900 + y else y) = y).
  { destruct (Z.leb_spec y 99); [lia|]. rewrite andb_false_r. reflexivity. }
  rewrite Hyr.
  assert (Hm1 : (mo - 1) / 12 = 0) by (apply Z.div_small; lia).
  assert (Hm2 : (mo - 1) mod 12 + 1 = mo) by (rewrite Z.mod_small by lia; lia).
  rewrite Hm1, Hm2. replace (y + 0) with y by lia.
  assert (Hlin : daysFromCivil y mo 1 + d - 1 = daysFromCivil y mo d)
    by (unfold daysFromCivil; lia).
  rewrite Hlin, Hrt. lia.
Qed.

(** ** The slot loop *)

Section Slots.
Context {intl : Intl}.
Variables (utcDayStart : Z) (zone localZone : string) (workStart workEnd : Z).

Local Abbreviation slotAt' := (slotAt utcDayStart zone localZone workStart workEnd).
Local Abbreviation slotsLoop' := (slotsLoop utcDayStart zone localZone workStart workEnd).

Lemma localHourMinute_known z ms :
  knownZone z -> exists lm, localHourMinuteFromUtcMs ms z = Ok lm.
Proof.
  intros Hz. destruct (Hz ms) as [p Hp].
  unfold localHourMinuteFromUtcMs. rewrite Hp. simpl. eauto.
Qed.

Lemma slotAt_known idx :
  knownZone zone -> knownZone localZone -> exists s, slotAt' idx = Ok s.
Proof.
  intros Hz Hl. unfold slotAt.
  destruct (localHourMinute_known localZone (utcDayStart + idx * 15 * 60 * 1000) Hl)
    as [lm ->].
  destruct (localHourMinute_known zone (utcDayStart + idx * 15 * 60 * 1000) Hz)
    as [om ->].
  simpl. eauto.
Qed.

(** What a pushed slot holds. *)
Lemma slotAt_fields idx s :
  slotAt' idx = Ok s ->
  i s = idx /\
  slotStart s = utcDayStart + idx * 15 * 60 * 1000 /\
  slotEnd s = slotStart s + 15 * 60 * 1000 /\
  localHourMinuteFromUtcMs (slotStart s) localZone = Ok (localLM s) /\
  localHourMinuteFromUtcMs (slotStart s) zone = Ok (otherLM s) /\
  localWork s = working (localLM s) workStart workEnd /\
  otherWork s = working (otherLM s) workStart workEnd /\
  overlap s = localWork s && otherWork s.
Proof.
  unfold slotAt. intros H.
  inv_bind H. inv_bind H. injection H as <-. simpl. auto 10.
Qed.

Lemma slotsLoop_inv fuel : forall idx arr out,
  slotsLoop' fuel idx arr = Ok out ->
  exists new,
    out = arr ++ new /\
    Z.of_nat (List.length new) = Z.min (Z.of_nat fuel) (Z.max 0 (96 - idx)) /\
    forall k s, nth_error new k = Some s -> slotAt' (idx + Z.of_nat k) = Ok s.
Proof.
  induction fuel as [|fuel IH]; intros idx arr out H; simpl in H.
  - injection H as <-. exists []. rewrite app_nil_r. repeat split.
    + cbn [List.length]. lia.
    + intros [|k] s Hs; discriminate.
  - destruct (Z.ltb_spec idx 96) as [Hlt|Hge].
    + inv_bind H. apply IH in H. destruct H as (new & -> & Hlen & Hnth).
      exists (a :: new). rewrite <- app_assoc. repeat split.
      * simpl List.length. lia.
      * intros [|k] s Hs; simpl in Hs.
        -- injection Hs as <-. rewrite Z.add_0_r. exact Ha.
        -- apply Hnth in Hs. rewrite <- Hs. f_equal. lia.
    + injection H as <-. exists []. rewrite app_nil_r. repeat split.
      * cbn [List.length]. lia.
      * intros [|k] s Hs; discriminate.
Qed.

Lemma slotsLoop_known fuel : forall idx arr,
  knownZone zone -> knownZone localZone ->
  exists out, slotsLoop' fuel idx arr = Ok out.
Proof.
  induction fuel as [|fuel IH]; intros idx arr Hz Hl; simpl.
  - eauto.
  - destruct (idx <? 96); [|eauto].
    destruct (slotAt_known idx Hz Hl) as [s ->]. simpl. apply IH; assumption.
Qed.

(** The slot sequence, when the loop completes: 96 slots, the one at
    position [k] being the slot pushed for index [k]. *)
Lemma slots_inv ss :
  slots utcDayStart zone localZone workStart workEnd = Ok ss ->
  List.length ss = 96%nat /\
  forall k s, nth_error ss k = Some s -> slotAt' (Z.of_nat k) = Ok s.
Proof.
  unfold slots. intros H. apply slotsLoop_inv in H.
  destruct H as (new & -> & Hlen & Hnth). simpl. split.
  - lia.
  - intros k s Hs. apply Hnth in Hs. exact Hs.
Qed.

Lemma slots_indexed ss :
  slots utcDayStart zone localZone workStart workEnd = Ok ss -> indexed ss.
Proof.
  intros H k s Hs. apply slots_inv in H. destruct H as [_ H].
  apply H in Hs. apply slotAt_fields in Hs. tauto.
Qed.

Lemma slots_known :
  knownZone zone -> knownZone localZone ->
  exists ss, slots utcDayStart zone localZone workStart workEnd = Ok ss.
Proof.
  intros Hz Hl. unfold slots. apply slotsLoop_known; assumption.
Qed.

End Slots.

(** ** The segment scan *)

Lemma StronglySorted_snoc {A : Type} (R : A -> A -> Prop) (l : list A) (x : A) :
  StronglySorted R l -> Forall (fun y => R y x) l -> StronglySorted R (l ++ [x]).
Proof.
  induction 1 as [|a l Hl IH Ha]; intros Hx; simpl.
  - constructor; constructor.
  - inversion Hx; subst. constructor.
    + apply IH; assumption.
    + apply Forall_app; split; [assumption | constructor; [assumption | constructor]].
Qed.

Lemma flagAt_true_range ss k :
  flagAt ss k = true -> 0 <= k < Z.of_nat (List.length ss).
Proof.
  unfold flagAt. destruct (Z.ltb_spec k 0) as [Hk|Hk]; [discriminate|].
  destruct (nth_error ss (Z.to_nat k)) eqn:Hn; [|discriminate].
  intros _. assert (Hlt : (Z.to_nat k < List.length ss)%nat).
  { apply nth_error_Some. congruence. }
  lia.
Qed.

Lemma flagAt_outside ss k :
  k < 0 \/ Z.of_nat (List.length ss) <= k -> flagAt ss k = false.
Proof.
  intros Hk. destruct (flagAt ss k) eqn:Hf; [|reflexivity].
  apply flagAt_true_range in Hf. lia.
Qed.

Lemma flagAt_nth ss k s :
  nth_error ss k = Some s -> flagAt ss (Z.of_nat k) = overlap s.
Proof.
  intros Hs. unfold flagAt.
  destruct (Z.ltb_spec (Z.of_nat k) 0) as [Hk|Hk]; [lia|].
  rewrite Nat2Z.id, Hs. reflexivity.
Qed.

Section Scan.
Variable f : Z -> bool.

Lemma closedRun_mono n n' g : n <= n' -> closedRun f n g -> closedRun f n' g.
Proof. unfold closedRun. intros Hn (H1 & H2 & H3). repeat split; try tauto; lia. Qed.

Lemma segmentStep_inv n st s :
  0 <= n -> scanInv f n st -> i s = n -> overlap s = f n ->
  scanInv f (n + 1) (segmentStep st s).
Proof.
  destruct st as [segs cur]. intros Hn [Hc Hs Ho Hcov] Hi Hov.
  simpl in Hc, Hs, Ho, Hcov. unfold segmentStep. rewrite Hov, Hi.
  assert (Hmono : Forall (closedRun f (n + 1)) segs).
  { eapply Forall_impl; [|exact Hc]. intros g. apply closedRun_mono. lia. }
  destruct (f n) eqn:Hf; destruct cur as [c|]; simpl in Ho.
  - (* the open segment grows *)
    destruct Ho as (H1 & H2 & H3 & H4 & H5).
    constructor; simpl; try assumption.
    + repeat split; try tauto; try lia.
      intros k [Hk1 Hk2]; simpl in Hk1, Hk2.
      destruct (Z.eq_dec k n) as [->|Hne]; [assumption|].
      apply H3. unfold covers. lia.
    + intros k Hk Hfk. destruct (Z.eq_dec k n) as [->|Hne].
      * right. eexists; split; [reflexivity|]. unfold covers; simpl. lia.
      * destruct (Hcov k ltac:(lia) Hfk) as [Hl|(c' & Hc' & Hcv)]; [left; exact Hl|].
        injection Hc' as <-. right. eexists; split; [reflexivity|].
        unfold covers in *; simpl. lia.
  - (* a segment opens *)
    constructor; simpl; try assumption.
    + repeat split; try lia.
      * intros k [Hk1 Hk2]; simpl in Hk1, Hk2.
        assert (k = n) as -> by lia. assumption.
      * destruct Ho as [->|Ho]; [left; reflexivity | right; exact Ho].
      * eapply Forall_impl; [|exact Hc]. intros g (_ & Hg & _).
        unfold gapBefore; simpl. lia.
    + intros k Hk Hfk. destruct (Z.eq_dec k n) as [->|Hne].
      * right. eexists; split; [reflexivity|]. unfold covers; simpl. lia.
      * destruct (Hcov k ltac:(lia) Hfk) as [Hl|(c' & Hc' & _)];
          [left; exact Hl | discriminate].
  - (* the open segment is pushed *)
    destruct Ho as (H1 & H2 & H3 & H4 & H5).
    constructor; simpl.
    + apply Forall_app; split; [assumption|]. constructor; [|constructor].
      unfold closedRun. replace (endIdx c + 1) with n by lia.
      repeat split; try tauto; lia.
    + apply StronglySorted_snoc; assumption.
    + right. replace (n + 1 - 1) with n by lia. assumption.
    + intros k Hk Hfk. assert (k <> n) by congruence. left.
      destruct (Hcov k ltac:(lia) Hfk) as [(g & Hg & Hcv)|(c' & Hc' & Hcv)].
      * exists g. split; [apply in_or_app; left; assumption | assumption].
      * injection Hc' as <-. exists c.
        split; [apply in_or_app; right; left; reflexivity | assumption].
  - (* nothing open, nothing opens *)
    constructor; simpl; try assumption.
    + right. replace (n + 1 - 1) with n by lia. assumption.
    + intros k Hk Hfk. assert (k <> n) by congruence.
      apply Hcov; [lia | assumption].
Qed.

Lemma scan_fold rest : forall n st,
  0 <= n -> scanInv f n st ->
  (forall k s, nth_error rest k = Some s ->
               i s = n + Z.of_nat k /\ overlap s = f (n + Z.of_nat k)) ->
  scanInv f (n + Z.of_nat (List.length rest)) (fold_left segmentStep rest st).
Proof.
  induction rest as [|s rest IH]; intros n st Hn Hinv Hrest; simpl fold_left.
  - simpl List.length. rewrite Z.add_0_r. assumption.
  - replace (n + Z.of_nat (List.length (s :: rest)))
      with ((n + 1) + Z.of_nat (List.length rest)) by (simpl List.length; lia).
    destruct (Hrest 0%nat s eq_refl) as [Hi Hov]. rewrite Z.add_0_r in Hi, Hov.
    apply IH; [lia | apply segmentStep_inv; assumption |].
    intros k s' Hs'. destruct (Hrest (S k) s' Hs') as [Hi' Hov'].
    replace (n + 1 + Z.of_nat k) with (n + Z.of_nat (S k)) by lia. tauto.
Qed.

Lemma scanInv_init : scanInv f 0 ([], None).
Proof.
  constructor; simpl.
  - constructor.
  - constructor.
  - left; reflexivity.
  - intros k Hk. lia.
Qed.

End Scan.

(** The reduction yields the maximal runs of flagged slots. *)
Lemma overlapSegments_runs ss :
  indexed ss -> maximalRuns ss (overlapSegments ss).
Proof.
  intros Hidx.
  assert (Hinv : scanInv (flagAt ss) (0 + Z.of_nat (List.length ss))
                         (fold_left segmentStep ss ([], None))).
  { apply scan_fold; [lia | apply scanInv_init |].
    intros k s Hs. rewrite Z.add_0_l. split.
    - apply Hidx; assumption.
    - symmetry. apply flagAt_nth; assumption. }
  rewrite Z.add_0_l in Hinv. unfold overlapSegments.
  destruct (fold_left segmentStep ss ([], None)) as [segs cur].
  destruct Hinv as [Hc Hs Ho Hcov]. simpl in Hc, Hs, Ho, Hcov.
  assert (Hclosed : Forall (isRun ss) segs).
  { eapply Forall_impl; [|exact Hc]. intros g (H1 & H2 & H3 & H4 & H5).
    unfold isRun. repeat split; try tauto; try lia.
    destruct H5 as [H5|H5]; [|assumption].
    apply flagAt_outside. lia. }
  destruct cur as [c|]; simpl in Ho.
  - destruct Ho as (H1 & H2 & H3 & H4 & H5). constructor.
    + apply StronglySorted_snoc; assumption.
    + apply Forall_app; split; [assumption|]. constructor; [|constructor].
      unfold isRun. repeat split; try tauto; try lia.
      * destruct H4 as [H4|H4]; [|assumption]. apply flagAt_outside. lia.
      * apply flagAt_outside. lia.
    + intros k Hk. pose proof (flagAt_true_range _ _ Hk) as Hr.
      destruct (Hcov k Hr Hk) as [(g & Hg & Hcv)|(c' & Hc' & Hcv)].
      * exists g. split; [apply in_or_app; left; assumption | assumption].
      * injection Hc' as <-. exists c.
        split; [apply in_or_app; right; left; reflexivity | assumption].
  - constructor; try assumption.
    intros k Hk. pose proof (flagAt_true_range _ _ Hk) as Hr.
    destruct (Hcov k Hr Hk) as [Hl|(c' & Hc' & _)]; [exact Hl | discriminate].
Qed.

Lemma StronglySorted_weaken {A : Type} (R R' : A -> A -> Prop) (P : A -> Prop)
      (l : list A) :
  (forall a b, P a -> P b -> R a b -> R' a b) ->
  Forall P l -> StronglySorted R l -> StronglySorted R' l.
Proof.
  intros HR HP Hs. induction Hs as [|a l Hl IH Ha]; [constructor|].
  inversion HP as [|? ? Pa Pl]; subst. constructor; [apply IH; assumption|].
  rewrite Forall_forall in *. intros b Hb. apply HR; auto.
Qed.

Lemma StronglySorted_split {A : Type} (R : A -> A -> Prop) (pre post : list A) (x : A) :
  StronglySorted R (pre ++ x :: post) -> Forall (R x) post.
Proof.
  induction pre as [|a pre IH]; simpl; intros Hs.
  - apply StronglySorted_inv in Hs. tauto.
  - apply StronglySorted_inv in Hs. apply IH. tauto.
Qed.

(** ** The three-hour test and the earliest start *)

Lemma qualifies_test g :
  ((endIdx g - startIdx g + 1) >=? 12) = true <-> qualifies g.
Proof. unfold qualifies, durationMinutes. rewrite Z.geb_le. lia. Qed.

Lemma hasFull3h_spec segs :
  hasFull3h segs = true <-> exists g, In g segs /\ qualifies g.
Proof.
  unfold hasFull3h. rewrite existsb_exists. change (3 * 4) with 12.
  split; intros (g & Hg & Hq); exists g; split; try assumption;
    apply qualifies_test; assumption.
Qed.

Lemma earliestFull3h_Some uds segs t :
  earliestFull3h uds segs = Some t ->
  exists pre g post,
    segs = pre ++ g :: post /\ Forall (fun g' => ~ qualifies g') pre /\
    qualifies g /\ t = uds + startIdx g * 15 * 60 * 1000.
Proof.
  induction segs as [|g segs IH]; simpl; [discriminate|].
  destruct (endIdx g - startIdx g + 1 >=? 12) eqn:Hq.
  - intros Ht. injection Ht as <-. exists [], g, segs.
    repeat split; [constructor | apply qualifies_test; assumption].
  - intros Ht. destruct (IH Ht) as (pre & g' & post & -> & Hpre & Hg' & ->).
    exists (g :: pre), g', post. repeat split; try assumption.
    constructor; [|assumption]. rewrite <- qualifies_test. congruence.
Qed.

Lemma earliestFull3h_None uds segs :
  earliestFull3h uds segs = None <-> forall g, In g segs -> ~ qualifies g.
Proof.
  induction segs as [|g segs IH]; simpl.
  - split; [intros _ g [] | reflexivity].
  - destruct (endIdx g - startIdx g + 1 >=? 12) eqn:Hq.
    + split; [discriminate|]. intros Hall. exfalso.
      apply (Hall g); [left; reflexivity | apply qualifies_test; assumption].
    + rewrite IH. split.
      * intros Hall g' [<-|Hg']; [|apply Hall; assumption].
        rewrite <- qualifies_test. congruence.
      * intros Hall g' Hg'. apply Hall. right; assumption.
Qed.

(** ** The component *)

Section Panel.
Context {intl : Intl}.
Variables (zone localZone : string) (workStart workEnd : Z) (now : Z).

Lemma MeetingPanel_inv p :
  MeetingPanel.MeetingPanel zone localZone workStart workEnd now = Ok p ->
  panelDayStart p = utcDayStartOf now /\
  slots (utcDayStartOf now) zone localZone workStart workEnd = Ok (panelSlots p) /\
  panelSegments p = overlapSegments (panelSlots p) /\
  panelHasFull3h p = hasFull3h (panelSegments p) /\
  panelEarliestFull3h p = earliestFull3h (panelDayStart p) (panelSegments p).
Proof.
  unfold MeetingPanel.MeetingPanel. intros H. inv_bind H.
  injection H as <-. simpl. auto.
Qed.

Lemma MeetingPanel_known :
  knownZone zone -> knownZone localZone ->
  exists p, MeetingPanel.MeetingPanel zone localZone workStart workEnd now = Ok p.
Proof.
  intros Hz Hl. unfold MeetingPanel.MeetingPanel.
  destruct (slots_known (utcDayStartOf now) zone localZone workStart workEnd Hz Hl)
    as [ss ->].
  simpl. eauto.
Qed.

Lemma MeetingPanel_runs p :
  MeetingPanel.MeetingPanel zone localZone workStart workEnd now = Ok p ->
  maximalRuns (panelSlots p) (panelSegments p).
Proof.
  intros H. apply MeetingPanel_inv in H. destruct H as (_ & Hs & -> & _).
  apply overlapSegments_runs. eapply slots_indexed; eassumption.
Qed.

End Panel.

(** The reference day starts on a day boundary of UTC. *)
Lemma utcDayStartOf_midnight now :
  utcDayStartOf now mod msPerDay = 0.
Proof.
  unfold utcDayStartOf, DateUTC. rewrite Z.add_0_r.
  apply Z.mod_mul. unfold msPerDay. lia.
Qed.

(** ** The fixed-offset host *)

Lemma FixedHost_known zones zone off :
  FixedHost.offsetOf zone = Some off -> @knownZone (FixedHost.host zones) zone.
Proof.
  intros Hoff ms. simpl. unfold FixedHost.wallClock. rewrite Hoff.
  destruct (civilFromDays ((ms + off * 60000) / msPerDay)) as [[y mo] d]. eauto.
Qed.

Lemma sampleSlots_indexed : indexed FixedHost.sampleSlots.
Proof.
  apply (@slots_indexed (FixedHost.host None)
           (utcDayStartOf FixedHost.sampleNow) "UTC" "Asia/Kolkata" 9 17).
  vm_compute. reflexivity.
Qed.

(** ** Properties of the overlap engine *)

(** C5. Whenever both zones are known to the host, the component builds
    exactly 96 = 1440 / 15 slots; the slot at position [k] starts at the
    reference UTC midnight plus [k] quarter hours and ends a quarter hour
    later, so starts strictly increase, each slot ends where the next one
    starts, the first starts at the reference midnight, the last ends 24
    hours later, and every instant of the reference day lies in exactly one
    slot.  The reference midnight is a day boundary of UTC, the one at or
    before [now] (for [now] from 1970 on). *)
Theorem slots_tile_reference_day {intl : Intl} (zone localZone : string)
        (workStart workEnd now : Z) :
  knownZone zone -> knownZone localZone ->
  exists p,
    MeetingPanel.MeetingPanel zone localZone workStart workEnd now = Ok p /\
    Z.of_nat (List.length (panelSlots p)) = 96 /\
    Z.of_nat (List.length (panelSlots p)) = 1440 / 15 /\
    panelDayStart p mod msPerDay = 0 /\
    (0 <= now -> panelDayStart p <= now < panelDayStart p + msPerDay) /\
    (forall k s, nth_error (panelSlots p) k = Some s ->
       i s = Z.of_nat k /\
       slotStart s = panelDayStart p + Z.of_nat k * (15 * 60 * 1000) /\
       slotEnd s = slotStart s + 15 * 60 * 1000) /\
    (forall k s s', nth_error (panelSlots p) k = Some s ->
       nth_error (panelSlots p) (S k) = Some s' ->
       slotStart s < slotStart s' /\ slotEnd s = slotStart s') /\
    (forall s, nth_error (panelSlots p) 0 = Some s ->
       slotStart s = panelDayStart p) /\
    (forall s, nth_error (panelSlots p) 95 = Some s ->
       slotEnd s = panelDayStart p + msPerDay) /\
    (forall t, panelDayStart p <= t < panelDayStart p + msPerDay ->
       exists k s, nth_error (panelSlots p) k = Some s /\
                   slotStart s <= t < slotEnd s /\
                   forall k' s', nth_error (panelSlots p) k' = Some s' ->
                                 slotStart s' <= t < slotEnd s' -> k' = k).
Proof.
  intros Hz Hl.
  destruct (MeetingPanel_known zone localZone workStart workEnd now Hz Hl) as [p Hp].
  exists p. split; [exact Hp|].
  destruct (MeetingPanel_inv _ _ _ _ _ _ Hp) as (Hday & Hss & _).
  destruct (slots_inv _ _ _ _ _ _ Hss) as [Hlen Hnth].
  assert (Hfield : forall k s, nth_error (panelSlots p) k = Some s ->
            i s = Z.of_nat k /\
            slotStart s = panelDayStart p + Z.of_nat k * (15 * 60 * 1000) /\
            slotEnd s = slotStart s + 15 * 60 * 1000).
  { intros k s Hs. apply Hnth in Hs. apply slotAt_fields in Hs.
    destruct Hs as (Hi & Hst & Hen & _). rewrite Hday. repeat split; lia. }
  repeat match goal with |- _ /\ _ => split end.
  - lia.
  - rewrite Hlen. reflexivity.
  - rewrite Hday. apply utcDayStartOf_midnight.
  - intros Hnow. rewrite Hday, (utcDayStartOf_floor now Hnow).
    pose proof (Z.div_mod now msPerDay ltac:(unfold msPerDay; lia)) as Hdm.
    pose proof (Z.mod_pos_bound now msPerDay ltac:(unfold msPerDay; lia)) as Hmb.
    lia.
  - exact Hfield.
  - intros k s s' H H0. apply Hfield in H, H0. lia.
  - intros s H. apply Hfield in H. lia.
  - intros s H. apply Hfield in H. unfold msPerDay. lia.
  - intros t Ht. unfold msPerDay in Ht.
    set (k := Z.to_nat ((t - panelDayStart p) / 900000)).
    assert (Hk : 0 <= (t - panelDayStart p) / 900000 < 96).
    { split; [apply Z.div_pos; lia | apply Z.div_lt_upper_bound; lia]. }
    destruct (nth_error (panelSlots p) k) as [s|] eqn:Hs.
    2:{ apply nth_error_None in Hs. subst k. lia. }
    exists k, s. split; [exact Hs|].
    pose proof (Hfield _ _ Hs) as (_ & Hst & Hen).
    assert (Hkz : Z.of_nat k = (t - panelDayStart p) / 900000) by (subst k; lia).
    pose proof (Z.div_mod (t - panelDayStart p) 900000 ltac:(lia)) as Hdm.
    pose proof (Z.mod_pos_bound (t - panelDayStart p) 900000 ltac:(lia)) as Hmb.
    split; [lia|].
    intros k' s' Hs' Ht'. apply Hfield in Hs'. destruct Hs' as (_ & Hst' & Hen').
    assert (Z.of_nat k' = Z.of_nat k) by nia. lia.
Qed.

Lemma slots_tile_reference_day_witness :
  @knownZone (FixedHost.host None) "UTC" /\
  @knownZone (FixedHost.host None) "Asia/Kolkata" /\
  exists p,
    @MeetingPanel.MeetingPanel (FixedHost.host None) "UTC" "Asia/Kolkata" 9 17
                               FixedHost.sampleNow = Ok p /\
    Z.of_nat (List.length (panelSlots p)) = 96.
Proof.
  assert (H1 : @knownZone (FixedHost.host None) "UTC")
    by (apply (FixedHost_known None "UTC" 0); reflexivity).
  assert (H2 : @knownZone (FixedHost.host None) "Asia/Kolkata")
    by (apply (FixedHost_known None "Asia/Kolkata" 330); reflexivity).
  split; [exact H1 | split; [exact H2|]].
  destruct (@slots_tile_reference_day (FixedHost.host None) "UTC" "Asia/Kolkata"
              9 17 FixedHost.sampleNow H1 H2) as (p & Hp & Hlen & _).
  exists p. split; assumption.
Defined.

Lemma working_spec lm workStart workEnd :
  working lm workStart workEnd = true <->
  (workStart <= h lm < workEnd) \/
  (workEnd = 24 /\ h lm = workEnd /\ m lm = 0).
Proof.
  unfold working.
  rewrite orb_true_iff, !andb_true_iff, Z.geb_le, Z.ltb_lt, !Z.eqb_eq. tauto.
Qed.

Lemma localHourMinute_inv {intl : Intl} ms z lm :
  localHourMinuteFromUtcMs ms z = Ok lm ->
  exists parts, formatToParts z ms = Ok parts /\
                lm = {| h := hour parts; m := minute parts |}.
Proof.
  unfold localHourMinuteFromUtcMs. intros H. inv_bind H.
  injection H as <-. eauto.
Qed.

Lemma panel_slot {intl : Intl} zone localZone workStart workEnd now p k s :
  MeetingPanel.MeetingPanel zone localZone workStart workEnd now = Ok p ->
  nth_error (panelSlots p) k = Some s ->
  slotAt (panelDayStart p) zone localZone workStart workEnd (Z.of_nat k) = Ok s.
Proof.
  intros Hp Hs. destruct (MeetingPanel_inv _ _ _ _ _ _ Hp) as (-> & Hss & _).
  destruct (slots_inv _ _ _ _ _ _ Hss) as [_ Hnth]. apply Hnth; assumption.
Qed.

(** The corner of the membership test: on a clock that reads midnight as
    hour 24, minute 0, that instant is inside a window ending at 24, and the
    rest of the hour is not; on a clock that reads it as hour 0 it is inside
    only for a window starting at 0. *)
Example working_at_midnight :
  working {| h := 24; m := 0 |} 9 24 = true /\
  working {| h := 24; m := 15 |} 9 24 = false /\
  working {| h := 0; m := 0 |} 9 24 = false /\
  working {| h := 0; m := 0 |} 0 24 = true /\
  working {| h := 23; m := 45 |} 9 24 = true.
Proof. repeat split; reflexivity. Qed.

(** C4 (as stated, refuted). On a host whose clock counts hours 0..23, with
    the window 9 to 24: the first slot of the day is local midnight (00:00)
    on the UTC side and is not marked working; slot 74 is local midnight on
    the Asia/Kolkata side, the instant that closes its window, and is not
    marked working either, while the slot before it (23:45) is. *)
Lemma local_midnight_outside_window_ending_at_24 :
  exists p s0 s73 s74,
    @MeetingPanel.MeetingPanel (FixedHost.host None) "Asia/Kolkata" "UTC" 9 24
                               FixedHost.sampleNow = Ok p /\
    nth_error (panelSlots p) 0 = Some s0 /\
    localLM s0 = {| h := 0; m := 0 |} /\ localWork s0 = false /\
    nth_error (panelSlots p) 73 = Some s73 /\
    otherLM s73 = {| h := 23; m := 45 |} /\ otherWork s73 = true /\
    nth_error (panelSlots p) 74 = Some s74 /\
    otherLM s74 = {| h := 0; m := 0 |} /\ otherWork s74 = false.
Proof.
  do 4 eexists. split; [vm_compute; reflexivity|].
  repeat match goal with |- _ /\ _ => split end; vm_compute; reflexivity.
Qed.

(** C4 (amended). For every slot the component builds, each side's working
    flag is true exactly when that side's local hour at the slot's UTC start
    lies in [workStart, workEnd), or the window ends at 24 and the formatter
    reads the local time as hour 24 (the end hour), minute 0; so on a side
    whose reading is not hour 24 (local midnight read as hour 0 included)
    the flag is the half-open test alone.  The overlap flag is the
    conjunction of the two working flags. *)
Theorem slot_working_flags {intl : Intl} (zone localZone : string)
        (workStart workEnd now : Z) (p : Panel) (k : nat) (s : Slot) :
  MeetingPanel.MeetingPanel zone localZone workStart workEnd now = Ok p ->
  nth_error (panelSlots p) k = Some s ->
  exists localParts otherParts,
    formatToParts localZone (slotStart s) = Ok localParts /\
    formatToParts zone (slotStart s) = Ok otherParts /\
    (localWork s = true <->
       (workStart <= hour localParts < workEnd) \/
       (workEnd = 24 /\ hour localParts = workEnd /\ minute localParts = 0)) /\
    (otherWork s = true <->
       (workStart <= hour otherParts < workEnd) \/
       (workEnd = 24 /\ hour otherParts = workEnd /\ minute otherParts = 0)) /\
    overlap s = localWork s && otherWork s /\
    (hour localParts <> 24 ->
       (localWork s = true <-> workStart <= hour localParts < workEnd)) /\
    (hour otherParts <> 24 ->
       (otherWork s = true <-> workStart <= hour otherParts < workEnd)).
Proof.
  intros Hp Hs. pose proof (panel_slot _ _ _ _ _ _ _ _ Hp Hs) as Hat.
  apply slotAt_fields in Hat.
  destruct Hat as (_ & _ & _ & Hl & Ho & Hlw & How & Hov).
  apply localHourMinute_inv in Hl, Ho.
  destruct Hl as (pl & Hpl & Hlm). destruct Ho as (po & Hpo & Hom).
  assert (Hlocal : localWork s = true <->
            (workStart <= hour pl < workEnd) \/
            (workEnd = 24 /\ hour pl = workEnd /\ minute pl = 0))
    by (rewrite Hlw, working_spec, Hlm; reflexivity).
  assert (Hother : otherWork s = true <->
            (workStart <= hour po < workEnd) \/
            (workEnd = 24 /\ hour po = workEnd /\ minute po = 0))
    by (rewrite How, working_spec, Hom; reflexivity).
  exists pl, po. repeat match goal with |- _ /\ _ => split end; try assumption.
  - intros Hne. rewrite Hlocal. split; [intros [H|(H24 & Hh & _)]; [exact H | lia] | auto].
  - intros Hne. rewrite Hother. split; [intros [H|(H24 & Hh & _)]; [exact H | lia] | auto].
Qed.

Lemma slot_working_flags_witness :
  exists s,
    @MeetingPanel.MeetingPanel (FixedHost.host None) "UTC" "Asia/Kolkata" 9 17
                               FixedHost.sampleNow = Ok FixedHost.samplePanel /\
    nth_error (panelSlots FixedHost.samplePanel) 40 = Some s /\
    overlap s = localWork s && otherWork s.
Proof.
  assert (Hp : @MeetingPanel.MeetingPanel (FixedHost.host None) "UTC" "Asia/Kolkata"
                 9 17 FixedHost.sampleNow = Ok FixedHost.samplePanel)
    by (vm_compute; reflexivity).
  destruct (nth_error (panelSlots FixedHost.samplePanel) 40) as [s|] eqn:Hs;
    [|vm_compute in Hs; discriminate].
  exists s. split; [exact Hp | split; [reflexivity|]].
  destruct (@slot_working_flags (FixedHost.host None) _ _ _ _ _ _ _ _ Hp Hs)
    as (pl & po & _ & _ & _ & _ & Hov & _).
  exact Hov.
Defined.

Lemma working_half_open lm workStart workEnd :
  0 <= h lm <= 23 ->
  ((h lm =? workEnd) && (m lm =? 0) && (workEnd =? 24)) = false /\
  working lm workStart workEnd = halfOpenTest workStart workEnd (h lm).
Proof.
  intros Hh.
  assert (Hdead : ((h lm =? workEnd) && (m lm =? 0) && (workEnd =? 24)) = false).
  { destruct (Z.eqb_spec (h lm) workEnd) as [He|]; [|reflexivity].
    destruct (Z.eqb_spec workEnd 24) as [H24|]; [lia|].
    rewrite andb_false_r. reflexivity. }
  split; [exact Hdead|].
  unfold working, halfOpenTest. rewrite Hdead, orb_false_r, Z.geb_leb. reflexivity.
Qed.

(** C10. For every slot the component builds whose two local hours lie in
    0..23, the special branch of the membership test (hour equal to the end
    hour 24 with minute 0) is false on both sides and both working flags
    equal the plain half-open test [workStart <= hour < workEnd]; so a side
    reading local midnight (hour 0, minute 0) is inside a window ending at
    24 exactly when [workStart <= 0], which for a start hour in the
    documented range 0..23 means [workStart = 0]. *)
Theorem midnight_branch_never_taken {intl : Intl} (zone localZone : string)
        (workStart workEnd now : Z) (p : Panel) (k : nat) (s : Slot) :
  MeetingPanel.MeetingPanel zone localZone workStart workEnd now = Ok p ->
  nth_error (panelSlots p) k = Some s ->
  0 <= h (localLM s) <= 23 -> 0 <= h (otherLM s) <= 23 ->
  ((h (localLM s) =? workEnd) && (m (localLM s) =? 0) && (workEnd =? 24)) = false /\
  ((h (otherLM s) =? workEnd) && (m (otherLM s) =? 0) && (workEnd =? 24)) = false /\
  localWork s = halfOpenTest workStart workEnd (h (localLM s)) /\
  otherWork s = halfOpenTest workStart workEnd (h (otherLM s)) /\
  overlap s = halfOpenTest workStart workEnd (h (localLM s)) &&
              halfOpenTest workStart workEnd (h (otherLM s)) /\
  (workEnd = 24 -> h (localLM s) = 0 -> m (localLM s) = 0 ->
     (localWork s = true <-> workStart <= 0) /\
     (0 <= workStart <= 23 -> (localWork s = true <-> workStart = 0))) /\
  (workEnd = 24 -> h (otherLM s) = 0 -> m (otherLM s) = 0 ->
     (otherWork s = true <-> workStart <= 0) /\
     (0 <= workStart <= 23 -> (otherWork s = true <-> workStart = 0))).
Proof.
  intros Hp Hs Hl Ho. pose proof (panel_slot _ _ _ _ _ _ _ _ Hp Hs) as Hat.
  apply slotAt_fields in Hat. destruct Hat as (_ & _ & _ & _ & _ & Hlw & How & Hov).
  destruct (working_half_open (localLM s) workStart workEnd Hl) as [Hdl Hel].
  destruct (working_half_open (otherLM s) workStart workEnd Ho) as [Hdo Heo].
  rewrite Hov, Hlw, How, Hel, Heo.
  repeat match goal with |- _ /\ _ => split end; try reflexivity; try assumption.
  - intros H24 Hh Hm. unfold halfOpenTest.
    rewrite andb_true_iff, Z.leb_le, Z.ltb_lt. lia.
  - intros H24 Hh Hm. unfold halfOpenTest.
    rewrite andb_true_iff, Z.leb_le, Z.ltb_lt. lia.
Qed.

Lemma midnight_branch_never_taken_witness :
  @MeetingPanel.MeetingPanel (FixedHost.host None) "Asia/Tokyo" "Europe/London" 0 24
                             FixedHost.sampleNow = Ok FixedHost.fullDayPanel /\
  nth_error (panelSlots FixedHost.fullDayPanel) 0 = Some FixedHost.midnightSlot /\
  (0 <= h (localLM FixedHost.midnightSlot) <= 23) /\
  (0 <= h (otherLM FixedHost.midnightSlot) <= 23) /\
  localWork FixedHost.midnightSlot =
    halfOpenTest 0 24 (h (localLM FixedHost.midnightSlot)).
Proof.
  assert (Hp : @MeetingPanel.MeetingPanel (FixedHost.host None) "Asia/Tokyo"
                 "Europe/London" 0 24 FixedHost.sampleNow = Ok FixedHost.fullDayPanel)
    by (vm_compute; reflexivity).
  assert (Hs : nth_error (panelSlots FixedHost.fullDayPanel) 0
               = Some FixedHost.midnightSlot)
    by (vm_compute; reflexivity).
  assert (Hl : 0 <= h (localLM FixedHost.midnightSlot) <= 23) by (simpl; lia).
  assert (Ho : 0 <= h (otherLM FixedHost.midnightSlot) <= 23) by (simpl; lia).
  split; [exact Hp | split; [exact Hs | split; [exact Hl | split; [exact Ho|]]]].
  destruct (@midnight_branch_never_taken (FixedHost.host None) _ _ _ _ _ _ _ _
              Hp Hs Hl Ho) as (_ & _ & Hw & _).
  exact Hw.
Defined.

(** C7 (as stated, refuted). With start hour 30 and end hour 5, and with
    start hour 9 and end hour 40, the component raises nothing: it returns
    its panel. *)
Lemma out_of_range_window_not_rejected :
  (exists p, @MeetingPanel.MeetingPanel (FixedHost.host None) "UTC" "Asia/Kolkata"
               30 5 FixedHost.sampleNow = Ok p) /\
  (~ exists e, @MeetingPanel.MeetingPanel (FixedHost.host None) "UTC" "Asia/Kolkata"
                 30 5 FixedHost.sampleNow = Throw e) /\
  (exists p, @MeetingPanel.MeetingPanel (FixedHost.host None) "UTC" "Asia/Kolkata"
               9 40 FixedHost.sampleNow = Ok p) /\
  (~ exists e, @MeetingPanel.MeetingPanel (FixedHost.host None) "UTC" "Asia/Kolkata"
                 9 40 FixedHost.sampleNow = Throw e).
Proof.
  repeat match goal with |- _ /\ _ => split end.
  - eexists. vm_compute. reflexivity.
  - intros [e He]. vm_compute in He. discriminate.
  - eexists. vm_compute. reflexivity.
  - intros [e He]. vm_compute in He. discriminate.
Qed.

(** C7 (amended). The component does not validate the work window: for any
    integers [workStart] and [workEnd], inside the documented ranges or not,
    it returns its panel of 96 slots whenever both zones are known to the
    host, and each working flag is the membership test applied to the given
    hours as they are. *)
Theorem window_hours_taken_as_given {intl : Intl} (zone localZone : string)
        (workStart workEnd now : Z) :
  knownZone zone -> knownZone localZone ->
  exists p,
    MeetingPanel.MeetingPanel zone localZone workStart workEnd now = Ok p /\
    Z.of_nat (List.length (panelSlots p)) = 96 /\
    forall s, In s (panelSlots p) ->
      localWork s = working (localLM s) workStart workEnd /\
      otherWork s = working (otherLM s) workStart workEnd.
Proof.
  intros Hz Hl.
  destruct (MeetingPanel_known zone localZone workStart workEnd now Hz Hl) as [p Hp].
  exists p. split; [exact Hp|].
  destruct (MeetingPanel_inv _ _ _ _ _ _ Hp) as (_ & Hss & _).
  destruct (slots_inv _ _ _ _ _ _ Hss) as [Hlen _].
  split; [lia|].
  intros s Hin. apply In_nth_error in Hin. destruct Hin as [k Hk].
  pose proof (panel_slot _ _ _ _ _ _ _ _ Hp Hk) as Hat.
  apply slotAt_fields in Hat. tauto.
Qed.

Lemma window_hours_taken_as_given_witness :
  @knownZone (FixedHost.host None) "UTC" /\
  @knownZone (FixedHost.host None) "Asia/Kolkata" /\
  exists p,
    @MeetingPanel.MeetingPanel (FixedHost.host None) "UTC" "Asia/Kolkata" 30 5
                               FixedHost.sampleNow = Ok p /\
    Z.of_nat (List.length (panelSlots p)) = 96.
Proof.
  assert (H1 : @knownZone (FixedHost.host None) "UTC")
    by (apply (FixedHost_known None "UTC" 0); reflexivity).
  assert (H2 : @knownZone (FixedHost.host None) "Asia/Kolkata")
    by (apply (FixedHost_known None "Asia/Kolkata" 330); reflexivity).
  split; [exact H1 | split; [exact H2|]].
  destruct (@window_hours_taken_as_given (FixedHost.host None) "UTC" "Asia/Kolkata"
              30 5 FixedHost.sampleNow H1 H2) as (p & Hp & Hlen & _).
  exists p. split; assumption.
Defined.

(** ** Properties of the segment reduction *)

(** C1. For every slot sequence carrying its positions, the segments the
    reduction returns are the maximal runs of flagged slots: any two
    segments, taken in list order, are disjoint, the earlier one starting
    and ending first, with a slot of the sequence whose overlap flag is false
    strictly between them; every segment lies inside the sequence, covers
    flagged slots only, and the positions just before and just after it are
    not flagged; and a position is flagged exactly when some segment covers
    it. *)
Theorem overlapSegments_maximal_runs (ss : list Slot) :
  indexed ss ->
  StronglySorted (fun a b => forall k, ~ (covers a k /\ covers b k))
                 (overlapSegments ss) /\
  StronglySorted (apart ss) (overlapSegments ss) /\
  StronglySorted (fun a b => startIdx a < startIdx b) (overlapSegments ss) /\
  Forall (isRun ss) (overlapSegments ss) /\
  (forall k, flagAt ss k = true <->
             exists g, In g (overlapSegments ss) /\ covers g k).
Proof.
  intros Hidx. destruct (overlapSegments_runs ss Hidx) as [Hs He Hc].
  repeat match goal with |- _ /\ _ => split end.
  - eapply StronglySorted_weaken; [|exact He|exact Hs].
    intros a b Ha Hb Hab k [Hka Hkb].
    unfold gapBefore, covers in *. lia.
  - eapply StronglySorted_weaken; [|exact He|exact Hs].
    intros a b (Ha1 & _ & _ & _ & Ha) (Hb1 & Hb2 & _) Hab.
    exists (endIdx a + 1). unfold gapBefore in Hab.
    repeat split; try lia; try assumption.
  - eapply StronglySorted_weaken; [|exact He|exact Hs].
    intros a b (Ha & _) _ Hab. unfold gapBefore in Hab. lia.
  - exact He.
  - intros k. split.
    + intros Hk. apply Hc; assumption.
    + intros (g & Hg & Hk). rewrite Forall_forall in He.
      destruct (He g Hg) as (_ & _ & Hall & _). apply Hall; assumption.
Qed.

Lemma overlapSegments_maximal_runs_witness :
  indexed FixedHost.sampleSlots /\
  Forall (isRun FixedHost.sampleSlots) (overlapSegments FixedHost.sampleSlots) /\
  overlapSegments FixedHost.sampleSlots = [ {| startIdx := 36; endIdx := 45 |} ].
Proof.
  split; [exact sampleSlots_indexed|]. split.
  - apply (overlapSegments_maximal_runs FixedHost.sampleSlots sampleSlots_indexed).
  - vm_compute. reflexivity.
Defined.

(** C2. For every pair of zones and every work window, the flag
    [hasFull3h] of the panel is true if and only if some segment lasts at
    least 180 minutes, its duration being (endIdx - startIdx + 1) * 15
    minutes; equivalently, some segment has at least 12 slots. *)
Theorem hasFull3h_iff_qualifying_segment {intl : Intl} (zone localZone : string)
        (workStart workEnd now : Z) (p : Panel) :
  MeetingPanel.MeetingPanel zone localZone workStart workEnd now = Ok p ->
  (panelHasFull3h p = true <->
     exists g, In g (panelSegments p) /\
               (endIdx g - startIdx g + 1) * 15 >= 180) /\
  (panelHasFull3h p = true <->
     exists g, In g (panelSegments p) /\ endIdx g - startIdx g + 1 >= 12).
Proof.
  intros Hp. destruct (MeetingPanel_inv _ _ _ _ _ _ Hp) as (_ & _ & _ & -> & _).
  rewrite hasFull3h_spec. unfold qualifies, durationMinutes. split.
  - reflexivity.
  - split; intros (g & Hg & Hq); exists g; split; try assumption; lia.
Qed.

Lemma hasFull3h_iff_qualifying_segment_witness :
  @MeetingPanel.MeetingPanel (FixedHost.host None) "Asia/Tokyo" "Europe/London" 0 24
                             FixedHost.sampleNow = Ok FixedHost.fullDayPanel /\
  (panelHasFull3h FixedHost.fullDayPanel = true <->
     exists g, In g (panelSegments FixedHost.fullDayPanel) /\
               (endIdx g - startIdx g + 1) * 15 >= 180).
Proof.
  assert (Hp : @MeetingPanel.MeetingPanel (FixedHost.host None) "Asia/Tokyo"
                 "Europe/London" 0 24 FixedHost.sampleNow = Ok FixedHost.fullDayPanel)
    by (vm_compute; reflexivity).
  split; [exact Hp|].
  destruct (@hasFull3h_iff_qualifying_segment (FixedHost.host None)
              _ _ _ _ _ _ Hp) as [Hiff _].
  exact Hiff.
Defined.

(** C3. When some segment qualifies, [earliestFull3h] is the UTC start of
    the qualifying segment with the lowest start index, whatever the lengths
    of the others: the reference midnight plus its start index times 15
    minutes, which is the start instant of the slot at that index.  When no
    segment qualifies it is null.  It is non-null exactly when [hasFull3h]
    is true. *)
Theorem earliestFull3h_is_earliest_qualifying {intl : Intl} (zone localZone : string)
        (workStart workEnd now : Z) (p : Panel) :
  MeetingPanel.MeetingPanel zone localZone workStart workEnd now = Ok p ->
  (panelHasFull3h p = true <-> panelEarliestFull3h p <> None) /\
  match panelEarliestFull3h p with
  | Some t =>
      exists g s,
        In g (panelSegments p) /\ qualifies g /\
        (forall g', In g' (panelSegments p) -> qualifies g' ->
                    startIdx g <= startIdx g') /\
        t = panelDayStart p + startIdx g * (15 * 60 * 1000) /\
        nth_error (panelSlots p) (Z.to_nat (startIdx g)) = Some s /\
        t = slotStart s
  | None => forall g, In g (panelSegments p) -> ~ qualifies g
  end.
Proof.
  intros Hp. pose proof (MeetingPanel_runs _ _ _ _ _ _ Hp) as [Hs He _].
  destruct (MeetingPanel_inv _ _ _ _ _ _ Hp) as (_ & _ & _ & Hhas & Hear).
  split.
  - rewrite Hhas, Hear, hasFull3h_spec. split.
    + intros (g & Hg & Hq) Hnone. rewrite earliestFull3h_None in Hnone.
      exact (Hnone g Hg Hq).
    + intros Hsome.
      destruct (hasFull3h (panelSegments p)) eqn:Hb;
        [apply hasFull3h_spec; exact Hb|].
      exfalso. apply Hsome. apply earliestFull3h_None. intros g Hg Hq.
      assert (hasFull3h (panelSegments p) = true)
        by (apply hasFull3h_spec; eauto).
      congruence.
  - rewrite Hear.
    destruct (earliestFull3h (panelDayStart p) (panelSegments p)) as [t|] eqn:Ht.
    + apply earliestFull3h_Some in Ht.
      destruct Ht as (pre & g & post & Hsegs & Hpre & Hq & Hval).
      assert (Hin : In g (panelSegments p))
        by (rewrite Hsegs; apply in_or_app; right; left; reflexivity).
      rewrite Forall_forall in He. destruct (He g Hin) as (Hg1 & Hg2 & _).
      destruct (nth_error (panelSlots p) (Z.to_nat (startIdx g))) as [s|] eqn:Hns.
      2:{ apply nth_error_None in Hns. lia. }
      exists g, s. repeat match goal with |- _ /\ _ => split end; try assumption.
      * intros g' Hg' Hq'. rewrite Hsegs in Hg'. apply in_app_or in Hg'.
        destruct Hg' as [Hg'|[<-|Hg']].
        -- rewrite Forall_forall in Hpre. exfalso. exact (Hpre g' Hg' Hq').
        -- lia.
        -- rewrite Hsegs in Hs. apply StronglySorted_split in Hs.
           rewrite Forall_forall in Hs. specialize (Hs g' Hg').
           unfold gapBefore in Hs. lia.
      * lia.
      * pose proof (panel_slot _ _ _ _ _ _ _ _ Hp Hns) as Hat.
        apply slotAt_fields in Hat. destruct Hat as (_ & Hst & _). lia.
    + rewrite earliestFull3h_None in Ht. exact Ht.
Qed.

Lemma earliestFull3h_is_earliest_qualifying_witness :
  @MeetingPanel.MeetingPanel (FixedHost.host None) "Asia/Tokyo" "Europe/London" 0 24
                             FixedHost.sampleNow = Ok FixedHost.fullDayPanel /\
  panelEarliestFull3h FixedHost.fullDayPanel = Some 1764028800000 /\
  (panelHasFull3h FixedHost.fullDayPanel = true <->
   panelEarliestFull3h FixedHost.fullDayPanel <> None).
Proof.
  assert (Hp : @MeetingPanel.MeetingPanel (FixedHost.host None) "Asia/Tokyo"
                 "Europe/London" 0 24 FixedHost.sampleNow = Ok FixedHost.fullDayPanel)
    by (vm_compute; reflexivity).
  split; [exact Hp|]. split; [vm_compute; reflexivity|].
  destruct (@earliestFull3h_is_earliest_qualifying (FixedHost.host None)
              _ _ _ _ _ _ Hp) as [Hiff _].
  exact Hiff.
Defined.

(** ** [Array.prototype.map] with a throwing callback *)

Lemma mapM_Ok {A B : Type} (f : A -> result B) (l : list A) (out : list B) :
  mapM f l = Ok out -> Forall2 (fun a b => f a = Ok b) l out.
Proof.
  revert out. induction l as [|a l IH]; simpl; intros out H.
  - injection H as <-. constructor.
  - inv_bind H. inv_bind H. injection H as <-. constructor; auto.
Qed.

Lemma mapM_total {A B : Type} (f : A -> result B) (l : list A) :
  (forall a, In a l -> exists b, f a = Ok b) -> exists out, mapM f l = Ok out.
Proof.
  induction l as [|a l IH]; simpl; intros Hall; [eauto|].
  destruct (Hall a (or_introl eq_refl)) as [b ->].
  destruct IH as [out ->]; [intros a' Ha'; apply Hall; right; assumption|].
  simpl. eauto.
Qed.

Lemma mapM_Throw {A B : Type} (f : A -> result B) (pre post : list A) (z : A) (e : exn) :
  (forall a, In a pre -> exists b, f a = Ok b) -> f z = Throw e ->
  mapM f (pre ++ z :: post) = Throw e.
Proof.
  induction pre as [|a pre IH]; simpl; intros Hall Hz.
  - rewrite Hz. reflexivity.
  - destruct (Hall a (or_introl eq_refl)) as [b ->]. simpl.
    rewrite IH; [reflexivity | | assumption].
    intros a' Ha'. apply Hall. right; assumption.
Qed.

(** ** The sort *)

Section Sort.
Context {A : Type}.
Variable cmp : A -> A -> Z.

Lemma insertSorted_Permutation x l : Permutation (insertSorted cmp x l) (x :: l).
Proof.
  induction l as [|y l IH]; simpl; [reflexivity|].
  destruct (cmp x y <=? 0); [reflexivity|].
  rewrite IH. apply perm_swap.
Qed.

Lemma sort_Permutation l : Permutation (sort cmp l) l.
Proof.
  induction l as [|x l IH]; simpl; [constructor|].
  rewrite insertSorted_Permutation. constructor. exact IH.
Qed.

Hypothesis cmp_flip : forall a b, cmp a b > 0 -> cmp b a <= 0.
Hypothesis cmp_trans : forall a b c, cmp a b <= 0 -> cmp b c <= 0 -> cmp a c <= 0.

Lemma insertSorted_sorted x l :
  StronglySorted (fun a b => cmp a b <= 0) l ->
  StronglySorted (fun a b => cmp a b <= 0) (insertSorted cmp x l).
Proof.
  induction 1 as [|y l Hl IH Hy]; simpl.
  - constructor; constructor.
  - destruct (Z.leb_spec (cmp x y) 0) as [Hxy|Hxy].
    + constructor; [constructor; assumption|].
      constructor; [assumption|].
      eapply Forall_impl; [|exact Hy]. intros b Hb. eapply cmp_trans; eassumption.
    + constructor; [assumption|].
      eapply Permutation_Forall; [symmetry; apply insertSorted_Permutation|].
      constructor; [apply cmp_flip; lia | assumption].
Qed.

Lemma sort_sorted l : StronglySorted (fun a b => cmp a b <= 0) (sort cmp l).
Proof.
  induction l as [|x l IH]; simpl; [constructor|].
  apply insertSorted_sorted. exact IH.
Qed.

End Sort.



(** ** The zone catalog *)

Section Catalog.
Context {intl : Intl}.
Variable now : Z.

Lemma tzOffsetMinutes_known zone :
  (exists p, formatToParts zone now = Ok p) <->
  (exists off, tzOffsetMinutes zone now = Ok off).
Proof.
  unfold tzOffsetMinutes. split.
  - intros [p ->]. simpl. eauto.
  - intros [off H]. inv_bind H. eauto.
Qed.

Lemma tzOffsetMinutes_Throw zone e :
  formatToParts zone now = Throw e <-> tzOffsetMinutes zone now = Throw e.
Proof.
  unfold tzOffsetMinutes. destruct (formatToParts zone now); simpl;
    split; congruence.
Qed.

(** The entry the [map] callback builds for a zone that resolves. *)
Lemma entry_fields zone e :
  (off <- tzOffsetMinutes zone now ;;
   Ok {| tz := zone; offset := off; cont := continentOf zone |}) = Ok e ->
  tz e = zone /\ tzOffsetMinutes zone now = Ok (offset e) /\
  cont e = continentOf zone.
Proof.
  intros H. inv_bind H. injection H as <-. simpl. auto.
Qed.

Lemma buildZonesList_inv out :
  buildZonesList now = Ok out ->
  exists arr,
    Forall2 (fun zone e => tz e = zone /\ tzOffsetMinutes zone now = Ok (offset e) /\
                           cont e = continentOf zone) getAllTimeZones arr /\
    out = sort compareZones arr.
Proof.
  unfold buildZonesList. intros H. inv_bind H. injection H as <-.
  exists a. split; [|reflexivity].
  apply mapM_Ok in Ha. eapply Forall2_impl; [|exact Ha].
  intros zone e. apply entry_fields.
Qed.

Lemma buildZonesList_total :
  (forall zone, In zone getAllTimeZones -> exists p, formatToParts zone now = Ok p) ->
  exists out, buildZonesList now = Ok out.
Proof.
  intros Hall. unfold buildZonesList.
  destruct (mapM_total
              (fun zone => off <- tzOffsetMinutes zone now ;;
                 Ok {| tz := zone; offset := off; cont := continentOf zone |})
              getAllTimeZones) as [arr ->].
  - intros zone Hz. apply Hall, tzOffsetMinutes_known in Hz.
    destruct Hz as [off ->]. simpl. eauto.
  - simpl. eauto.
Qed.

Lemma Forall2_map_tz zones arr :
  Forall2 (fun zone e => tz e = zone /\ tzOffsetMinutes zone now = Ok (offset e) /\
                         cont e = continentOf zone) zones arr ->
  map tz arr = zones /\
  Forall (fun e => tzOffsetMinutes (tz e) now = Ok (offset e) /\
                   cont e = continentOf (tz e)) arr.
Proof.
  induction 1 as [|zone e zones arr (H1 & H2 & H3) _ [IH1 IH2]]; simpl.
  - split; constructor.
  - split; [congruence|]. constructor; [|assumption]. subst zone. auto.
Qed.

Lemma compareZones_le a b : compareZones a b <= 0 <-> catalogLe a b.
Proof.
  unfold compareZones, catalogLe.
  destruct (Z.eqb_spec (offset a - offset b) 0); lia.
Qed.

Hypothesis collation : collationOrder.

Lemma compareZones_flip a b : compareZones a b > 0 -> compareZones b a <= 0.
Proof.
  unfold compareZones.
  destruct (Z.eqb_spec (offset a - offset b) 0);
    destruct (Z.eqb_spec (offset b - offset a) 0); try lia.
  intros H. apply (collation_flip collation) in H. lia.
Qed.

Lemma compareZones_trans a b c :
  compareZones a b <= 0 -> compareZones b c <= 0 -> compareZones a c <= 0.
Proof.
  rewrite !compareZones_le. unfold catalogLe.
  intros [Hab|[Hab Hab']] [Hbc|[Hbc Hbc']]; try (left; lia).
  right. split; [lia|]. eapply (collation_trans collation); eassumption.
Qed.


Lemma catalog_sorted arr : StronglySorted catalogLe (sort compareZones arr).
Proof.
  eapply StronglySorted_weaken with (P := fun _ => True);
    [| apply Forall_forall; trivial
     | apply sort_sorted; [exact compareZones_flip | exact compareZones_trans]].
  intros a b _ _. apply compareZones_le.
Qed.

End Catalog.

Lemma codeUnitCompare_order zones : @collationOrder (FixedHost.host zones).
Proof.
  assert (Heq : forall a b, String.compare a b = Eq <-> a = b)
    by exact String_as_OT.cmp_eq.
  assert (Hlt : forall a b, String.compare a b = Lt <-> String_as_OT.lt a b)
    by exact String_as_OT.cmp_lt.
  constructor; simpl; unfold FixedHost.codeUnitCompare.
  - intros a b. rewrite (String.compare_antisym a b).
    destruct (String.compare b a); simpl; lia.
  - intros a b. rewrite <- Heq.
    destruct (String.compare a b); split; intros H; try reflexivity;
      try discriminate; lia.
  - intros a b c.
    destruct (String.compare a b) eqn:Hab; try lia;
      destruct (String.compare b c) eqn:Hbc; try lia; intros _ _.
    + apply Heq in Hab, Hbc. subst. rewrite (proj2 (Heq c c) eq_refl). lia.
    + apply Heq in Hab. subst. rewrite Hbc. lia.
    + apply Heq in Hbc. subst. rewrite Hab. lia.
    + apply Hlt in Hab, Hbc.
      pose proof (String_as_OT.lt_trans _ _ _ Hab Hbc) as Hac.
      apply Hlt in Hac. rewrite Hac. lia.
Qed.





(** ** Properties of the catalog builder *)

(** C6 (as stated, refuted). On an enumeration of three ids whose second the
    host does not know, the builder returns no catalog: the [RangeError] of
    the unknown id leaves [buildZonesList], although the other two ids
    resolve. *)
Lemma unknown_zone_aborts_catalog :
  @tzOffsetMinutes (FixedHost.host (Some FixedHost.zonesWithUnknown))
                   "Asia/Kolkata" FixedHost.sampleNow = Ok 330 /\
  @tzOffsetMinutes (FixedHost.host (Some FixedHost.zonesWithUnknown))
                   "Europe/London" FixedHost.sampleNow = Ok 0 /\
  @buildZonesList (FixedHost.host (Some FixedHost.zonesWithUnknown))
                  FixedHost.sampleNow = Throw (RangeError "Mars/Olympus_Mons") /\
  ~ exists out, @buildZonesList (FixedHost.host (Some FixedHost.zonesWithUnknown))
                                FixedHost.sampleNow = Ok out.
Proof.
  repeat match goal with |- _ /\ _ => split end; try (vm_compute; reflexivity).
  intros [out H]. vm_compute in H. discriminate.
Qed.

(** C6 (amended). The builder does not recover from a failed offset
    resolution: if the enumeration reads [pre ++ zone :: post], every id of
    [pre] resolves and [zone] fails, then the failure of [zone] leaves
    [buildZonesList] and no catalog is returned.  When every id resolves,
    a catalog is returned and its ids are those of the enumeration. *)
Theorem catalog_build_stops_at_unresolved_zone {intl : Intl} (now : Z) :
  (forall pre zone post e,
     getAllTimeZones = pre ++ zone :: post ->
     (forall z, In z pre -> exists off, tzOffsetMinutes z now = Ok off) ->
     tzOffsetMinutes zone now = Throw e ->
     buildZonesList now = Throw e /\
     ~ exists out, buildZonesList now = Ok out) /\
  ((forall zone, In zone getAllTimeZones ->
                 exists off, tzOffsetMinutes zone now = Ok off) ->
   exists out, buildZonesList now = Ok out /\
               Permutation (map tz out) getAllTimeZones).
Proof.
  split.
  - intros pre zone post e Henum Hpre Hzone.
    assert (Hthrow : buildZonesList now = Throw e).
    { unfold buildZonesList. rewrite Henum.
      rewrite (mapM_Throw _ pre post zone e); [reflexivity | |].
      - intros z Hz. destruct (Hpre z Hz) as [off ->]. simpl. eauto.
      - rewrite Hzone. reflexivity. }
    split; [exact Hthrow|]. intros [out Hout]. congruence.
  - intros Hall.
    destruct (buildZonesList_total now) as [out Hout].
    { intros zone Hz. apply tzOffsetMinutes_known. apply Hall. exact Hz. }
    exists out. split; [exact Hout|].
    apply buildZonesList_inv in Hout. destruct Hout as (arr & Harr & ->).
    apply Forall2_map_tz in Harr. destruct Harr as [<- _].
    apply Permutation_map. apply sort_Permutation.
Qed.

Lemma catalog_build_stops_at_unresolved_zone_witness :
  @getAllTimeZones (FixedHost.host (Some FixedHost.zonesWithUnknown)) =
    ["Asia/Kolkata"] ++ "Mars/Olympus_Mons" :: ["Europe/London"] /\
  @buildZonesList (FixedHost.host (Some FixedHost.zonesWithUnknown))
                  FixedHost.sampleNow = Throw (RangeError "Mars/Olympus_Mons").
Proof.
  split; [reflexivity|].
  destruct (@catalog_build_stops_at_unresolved_zone
              (FixedHost.host (Some FixedHost.zonesWithUnknown)) FixedHost.sampleNow)
    as [Hstop _].
  apply (Hstop ["Asia/Kolkata"] "Mars/Olympus_Mons" ["Europe/London"]
               (RangeError "Mars/Olympus_Mons")).
  - reflexivity.
  - intros z [<-|[]]. exists 330. vm_compute. reflexivity.
  - vm_compute. reflexivity.
Defined.




(** ** Zones at fixed offsets *)

Lemma hmAtOffset_day off uds x :
  uds mod msPerDay = 0 -> hmAtOffset off (uds + x) = hmAtOffset off x.
Proof.
  intros Hday. apply Z.div_exact in Hday; [|unfold msPerDay; lia].
  unfold msPerDay in Hday. set (q := uds / 86400000) in Hday.
  unfold hmAtOffset. f_equal.
  - replace (uds + x + off * 60000)
      with ((x + off * 60000) + (24 * q) * 3600000) by lia.
    rewrite Z.div_add by lia.
    replace ((x + off * 60000) / 3600000 + 24 * q)
      with ((x + off * 60000) / 3600000 + q * 24) by lia.
    apply Z_mod_plus_full.
  - replace (uds + x + off * 60000)
      with ((x + off * 60000) + (1440 * q) * 60000) by lia.
    rewrite Z.div_add by lia.
    replace ((x + off * 60000) / 60000 + 1440 * q)
      with ((x + off * 60000) / 60000 + (24 * q) * 60) by lia.
    apply Z_mod_plus_full.
Qed.

Lemma fixedOffset_known {intl : Intl} zone off :
  fixedOffset zone off -> knownZone zone.
Proof.
  intros Hfix ms. specialize (Hfix ms).
  apply localHourMinute_inv in Hfix. destruct Hfix as (p & Hp & _). eauto.
Qed.

Lemma fixedOffset_slot {intl : Intl} zone localZone offZ offL ws we uds k s :
  fixedOffset zone offZ -> fixedOffset localZone offL ->
  uds mod msPerDay = 0 ->
  slotAt uds zone localZone ws we k = Ok s ->
  i s = k /\
  localLM s = hmAtOffset offL (k * 900000) /\
  otherLM s = hmAtOffset offZ (k * 900000) /\
  overlap s = working (hmAtOffset offL (k * 900000)) ws we &&
              working (hmAtOffset offZ (k * 900000)) ws we.
Proof.
  intros Hz Hl Hday Hat. apply slotAt_fields in Hat.
  destruct Hat as (Hi & Hst & _ & Hlm & Hom & Hlw & How & Hov).
  rewrite Hl in Hlm. rewrite Hz in Hom.
  injection Hlm as Hlm. injection Hom as Hom.
  replace (slotStart s) with (uds + k * 900000) in Hlm, Hom by lia.
  rewrite hmAtOffset_day in Hlm, Hom by assumption.
  rewrite Hov, Hlw, How, <- Hlm, <- Hom. auto.
Qed.

Lemma FixedHost_fixedOffset zones zone off :
  FixedHost.offsetOf zone = Some off -> @fixedOffset (FixedHost.host zones) zone off.
Proof.
  intros Hoff ms. unfold localHourMinuteFromUtcMs. simpl.
  unfold FixedHost.wallClock. rewrite Hoff.
  destruct (civilFromDays ((ms + off * 60000) / msPerDay)) as [[y mo] d].
  reflexivity.
Qed.

(** The reduction reads a slot through its index and its overlap flag only. *)
Lemma segmentStep_ext st s s' :
  i s = i s' -> overlap s = overlap s' -> segmentStep st s = segmentStep st s'.
Proof. intros Hi Ho. unfold segmentStep. rewrite Hi, Ho. reflexivity. Qed.

Lemma overlapSegments_ext ss ss' :
  Forall2 (fun s s' => i s = i s' /\ overlap s = overlap s') ss ss' ->
  overlapSegments ss = overlapSegments ss'.
Proof.
  intros H. unfold overlapSegments.
  assert (Hfold : forall st, fold_left segmentStep ss st = fold_left segmentStep ss' st).
  { induction H as [|s s' ss ss' [Hi Ho] _ IH]; intros st; simpl; [reflexivity|].
    rewrite (segmentStep_ext st s s' Hi Ho). apply IH. }
  rewrite Hfold. reflexivity.
Qed.

Lemma Forall2_nth_error {A B : Type} (R : A -> B -> Prop) (l : list A) :
  forall l', List.length l = List.length l' ->
  (forall k a b, nth_error l k = Some a -> nth_error l' k = Some b -> R a b) ->
  Forall2 R l l'.
Proof.
  induction l as [|a l IH]; intros [|b l'] Hlen Hnth; try discriminate.
  - constructor.
  - constructor.
    + apply (Hnth 0%nat); reflexivity.
    + apply IH; [simpl in Hlen; lia|].
      intros k x y Hx Hy. apply (Hnth (S k)); assumption.
Qed.

(** Two runs over zones at the same fixed offsets, with the same window,
    flag the same slots, whatever the host and the day. *)
Lemma fixedOffset_segments (intl intl' : Intl) zone localZone zone' localZone'
      offZ offL ws we uds uds' ss ss' :
  @fixedOffset intl zone offZ -> @fixedOffset intl localZone offL ->
  @fixedOffset intl' zone' offZ -> @fixedOffset intl' localZone' offL ->
  uds mod msPerDay = 0 -> uds' mod msPerDay = 0 ->
  @slots intl uds zone localZone ws we = Ok ss ->
  @slots intl' uds' zone' localZone' ws we = Ok ss' ->
  overlapSegments ss = overlapSegments ss'.
Proof.
  intros Hz Hl Hz' Hl' Hday Hday' Hss Hss'.
  apply overlapSegments_ext.
  destruct (@slots_inv intl _ _ _ _ _ _ Hss) as [Hlen Hnth].
  destruct (@slots_inv intl' _ _ _ _ _ _ Hss') as [Hlen' Hnth'].
  apply Forall2_nth_error; [congruence|].
  intros k a b Ha Hb. apply Hnth in Ha. apply Hnth' in Hb.
  destruct (@fixedOffset_slot intl _ _ _ _ _ _ _ _ _ Hz Hl Hday Ha)
    as (Hi & _ & _ & Ho).
  destruct (@fixedOffset_slot intl' _ _ _ _ _ _ _ _ _ Hz' Hl' Hday' Hb)
    as (Hi' & _ & _ & Ho').
  split; congruence.
Qed.

(** ** Scenario: UTC against UTC+5:30, both working 9 to 17 *)

(** C9 (as stated, refuted). On the fixed-offset host, with zoneA = UTC and
    zoneB = Asia/Kolkata, the only segment runs over slots 36..45, and at
    its first slot the zoneA side reads 09:00, not 14:30; it is the zoneB
    side that reads 14:30.  This holds whichever of the two zones is passed
    as [localZone]. *)
Lemma scenario_window_reads_0900_on_utc_side :
  (exists p first,
     @MeetingPanel.MeetingPanel (FixedHost.host None) "Asia/Kolkata" "UTC" 9 17
                                FixedHost.sampleNow = Ok p /\
     panelSegments p = [ {| startIdx := 36; endIdx := 45 |} ] /\
     nth_error (panelSlots p) 36 = Some first /\
     localLM first = {| h := 9; m := 0 |} /\
     localLM first <> {| h := 14; m := 30 |} /\
     otherLM first = {| h := 14; m := 30 |}) /\
  (exists p first,
     @MeetingPanel.MeetingPanel (FixedHost.host None) "UTC" "Asia/Kolkata" 9 17
                                FixedHost.sampleNow = Ok p /\
     panelSegments p = [ {| startIdx := 36; endIdx := 45 |} ] /\
     nth_error (panelSlots p) 36 = Some first /\
     otherLM first = {| h := 9; m := 0 |} /\
     otherLM first <> {| h := 14; m := 30 |} /\
     localLM first = {| h := 14; m := 30 |}).
Proof.
  split.
  - eexists. eexists. split; [vm_compute; reflexivity|].
    split; [reflexivity|]. split; [vm_compute; reflexivity|].
    split; [reflexivity|]. split; [discriminate | reflexivity].
  - eexists. eexists. split; [vm_compute; reflexivity|].
    split; [reflexivity|]. split; [vm_compute; reflexivity|].
    split; [reflexivity|]. split; [discriminate | reflexivity].
Qed.

(** C9 (amended). For zoneA at the fixed offset UTC+0 and zoneB at the fixed
    offset UTC+5:30, both with work window 9 to 17, on any host and any
    day, the component returns exactly one segment, slots 36..45: the
    segments are non-empty, their total duration is 150 minutes, below the
    180-minute threshold, so [hasFull3h] is false and no start is
    reported.  The overlap window reads 09:00 to 11:30 on the zoneA side and
    14:30 to 17:00 on the zoneB side.  Passing the two zones the other way
    round gives the same segments. *)
Theorem scenario_utc_and_plus_0530 {intl : Intl} (zoneA zoneB : string) (now : Z) :
  fixedOffset zoneA 0 -> fixedOffset zoneB 330 ->
  exists p,
    MeetingPanel.MeetingPanel zoneB zoneA 9 17 now = Ok p /\
    panelSegments p = [ {| startIdx := 36; endIdx := 45 |} ] /\
    panelSegments p <> [] /\
    totalMinutes (panelSegments p) = 150 /\
    totalMinutes (panelSegments p) < 180 /\
    panelHasFull3h p = false /\
    panelEarliestFull3h p = None /\
    (exists first last,
       nth_error (panelSlots p) 36 = Some first /\
       nth_error (panelSlots p) 45 = Some last /\
       localLM first = {| h := 9; m := 0 |} /\
       otherLM first = {| h := 14; m := 30 |} /\
       localHourMinuteFromUtcMs (slotEnd last) zoneA = Ok {| h := 11; m := 30 |} /\
       localHourMinuteFromUtcMs (slotEnd last) zoneB = Ok {| h := 17; m := 0 |}) /\
    (exists p',
       MeetingPanel.MeetingPanel zoneA zoneB 9 17 now = Ok p' /\
       panelSegments p' = panelSegments p /\
       panelHasFull3h p' = false /\ panelEarliestFull3h p' = None).
Proof.
  intros HA HB.
  pose proof (fixedOffset_known _ _ HA) as HkA.
  pose proof (fixedOffset_known _ _ HB) as HkB.
  pose proof (utcDayStartOf_midnight now) as Hday.
  assert (Hday0 : 0 mod msPerDay = 0) by reflexivity.
  assert (HhA : @fixedOffset (FixedHost.host None) "UTC" 0)
    by (apply FixedHost_fixedOffset; reflexivity).
  assert (HhB : @fixedOffset (FixedHost.host None) "Asia/Kolkata" 330)
    by (apply FixedHost_fixedOffset; reflexivity).
  assert (Href : exists ss', @slots (FixedHost.host None) 0 "Asia/Kolkata" "UTC" 9 17
                             = Ok ss' /\
                             overlapSegments ss' = [ {| startIdx := 36; endIdx := 45 |} ])
    by (eexists; split; vm_compute; reflexivity).
  assert (Href' : exists ss', @slots (FixedHost.host None) 0 "UTC" "Asia/Kolkata" 9 17
                              = Ok ss' /\
                              overlapSegments ss' = [ {| startIdx := 36; endIdx := 45 |} ])
    by (eexists; split; vm_compute; reflexivity).
  destruct Href as (ss0 & Hss0 & Hseg0). destruct Href' as (ss1 & Hss1 & Hseg1).
  destruct (MeetingPanel_known zoneB zoneA 9 17 now HkB HkA) as [p Hp].
  destruct (MeetingPanel_known zoneA zoneB 9 17 now HkA HkB) as [p' Hp'].
  destruct (MeetingPanel_inv _ _ _ _ _ _ Hp) as (Hd & Hss & Hsegs & Hhas & Hear).
  destruct (MeetingPanel_inv _ _ _ _ _ _ Hp') as (Hd' & Hss' & Hsegs' & Hhas' & Hear').
  assert (Hseg : panelSegments p = [ {| startIdx := 36; endIdx := 45 |} ]).
  { rewrite Hsegs, <- Hseg0.
    exact (fixedOffset_segments _ _ _ _ _ _ _ _ _ _ _ _ _ _
             HB HA HhB HhA Hday Hday0 Hss Hss0). }
  assert (Hseg' : panelSegments p' = [ {| startIdx := 36; endIdx := 45 |} ]).
  { rewrite Hsegs', <- Hseg1.
    exact (fixedOffset_segments _ _ _ _ _ _ _ _ _ _ _ _ _ _
             HA HB HhA HhB Hday Hday0 Hss' Hss1). }
  exists p. split; [exact Hp|]. split; [exact Hseg|].
  rewrite Hhas, Hear, Hseg.
  split; [discriminate|]. split; [reflexivity|]. split; [reflexivity|].
  split; [reflexivity|]. split; [reflexivity|]. split.
  - destruct (slots_inv _ _ _ _ _ _ Hss) as [Hlen Hnth].
    destruct (nth_error (panelSlots p) 36) as [first|] eqn:Hfirst.
    2:{ apply nth_error_None in Hfirst. lia. }
    destruct (nth_error (panelSlots p) 45) as [last|] eqn:Hlast.
    2:{ apply nth_error_None in Hlast. lia. }
    exists first, last. split; [reflexivity|]. split; [reflexivity|].
    apply Hnth in Hfirst, Hlast.
    destruct (fixedOffset_slot _ _ _ _ _ _ _ _ _ HB HA Hday Hfirst)
      as (_ & Hl & Ho & _).
    apply slotAt_fields in Hlast. destruct Hlast as (_ & Hst & Hen & _).
    assert (Hend : slotEnd last = utcDayStartOf now + 41400000)
      by (rewrite Hen, Hst; simpl Z.of_nat; lia).
    rewrite Hl, Ho, Hend, HA, HB, !hmAtOffset_day by assumption.
    repeat split; reflexivity.
  - exists p'. split; [exact Hp'|]. rewrite Hhas', Hear', Hseg'.
    repeat split; reflexivity.
Qed.

Lemma scenario_utc_and_plus_0530_witness :
  @fixedOffset (FixedHost.host None) "UTC" 0 /\
  @fixedOffset (FixedHost.host None) "Asia/Kolkata" 330 /\
  exists p,
    @MeetingPanel.MeetingPanel (FixedHost.host None) "Asia/Kolkata" "UTC" 9 17
                               FixedHost.sampleNow = Ok p /\
    panelSegments p = [ {| startIdx := 36; endIdx := 45 |} ] /\
    panelHasFull3h p = false.
Proof.
  assert (HA : @fixedOffset (FixedHost.host None) "UTC" 0)
    by (apply FixedHost_fixedOffset; reflexivity).
  assert (HB : @fixedOffset (FixedHost.host None) "Asia/Kolkata" 330)
    by (apply FixedHost_fixedOffset; reflexivity).
  split; [exact HA | split; [exact HB|]].
  destruct (@scenario_utc_and_plus_0530 (FixedHost.host None) "UTC" "Asia/Kolkata"
              FixedHost.sampleNow HA HB)
    as (p & Hp & Hseg & _ & _ & _ & Hhas & _).
  exists p. repeat split; assumption.
Defined.

(** ** Offset resolution on the fixed-offset host

    On a host that reads a zone at a constant offset, [tzOffsetMinutes]
    returns that offset: rebuilding a UTC instant from the wall-clock fields
    and rounding the difference to the minute absorbs the milliseconds the
    fields drop. *)
Lemma FixedHost_tzOffsetMinutes zones zone off now :
  FixedHost.offsetOf zone = Some off -> 0 <= now + off * 60000 ->
  @tzOffsetMinutes (FixedHost.host zones) zone now = Ok off.
Proof.
  intros Hoff Hpos. unfold tzOffsetMinutes. simpl.
  unfold FixedHost.wallClock. rewrite Hoff.
  set (t := now + off * 60000) in *.
  pose proof (daysFromCivil_civilFromDays (t / msPerDay)) as Hrt.
  destruct (civilFromDays (t / msPerDay)) as [[y mo] d]. simpl.
  destruct Hrt as (Hrt & Hmo & Hd & Hy).
  assert (Hday : 0 <= t / msPerDay) by (apply Z.div_pos; unfold msPerDay; lia).
  specialize (Hy Hday). f_equal. unfold DateUTC.
  assert (Hyr : (if (0 <=? y) && (y <=? 99) then 1900 + y else y) = y).
  { destruct (Z.leb_spec y 99); [lia|]. rewrite andb_false_r. reflexivity. }
  assert (Hm1 : (mo - 1) / 12 = 0) by (apply Z.div_small; lia).
  assert (Hm2 : (mo - 1) mod 12 + 1 = mo) by (rewrite Z.mod_small by lia; lia).
  rewrite Hyr, Hm1, Hm2. replace (y + 0) with y by lia.
  assert (Hlin : daysFromCivil y mo 1 + d - 1 = daysFromCivil y mo d)
    by (unfold daysFromCivil; lia).
  rewrite Hlin, Hrt. unfold roundDiv, msPerDay.
  assert (Hfields : t / 86400000 * 86400000 +
                    ((t / 3600000) mod 24 * 3600000 + (t / 60000) mod 60 * 60000 +
                     (t / 1000) mod 60 * 1000) = t - t mod 1000).
  { Z.to_euclidean_division_equations; lia. }
  rewrite Hfields.
  pose proof (Z.mod_pos_bound t 1000 ltac:(lia)) as Hr.
  replace (2 * (t - t mod 1000 - now) + 60000)
    with ((60000 - 2 * (t mod 1000)) + off * (2 * 60000)) by (subst t; lia).
  rewrite Z.div_add by lia. rewrite Z.div_small by lia. lia.
Qed.

(** * Further properties of the code *)

(** ** The segment reduction on uniform flags *)

Lemma fold_segmentStep_no_overlap ss : forall segs,
  Forall (fun s => overlap s = false) ss ->
  fold_left segmentStep ss (segs, None) = (segs, None).
Proof.
  induction ss as [|s ss IH]; intros segs Hall; simpl; [reflexivity|].
  inversion Hall as [|? ? Hs Hss]; subst. rewrite Hs. apply IH. exact Hss.
Qed.

Lemma overlapSegments_no_overlap ss :
  Forall (fun s => overlap s = false) ss -> overlapSegments ss = [].
Proof.
  intros Hall. unfold overlapSegments.
  rewrite fold_segmentStep_no_overlap by assumption. reflexivity.
Qed.

Lemma fold_segmentStep_all_overlap rest : forall n c,
  (forall k s, nth_error rest k = Some s ->
               i s = n + Z.of_nat k /\ overlap s = true) ->
  endIdx c = n - 1 ->
  fold_left segmentStep rest ([], Some c) =
  ([], Some {| startIdx := startIdx c;
               endIdx := n + Z.of_nat (List.length rest) - 1 |}).
Proof.
  induction rest as [|s rest IH]; intros n c Hrest Hc.
  - simpl. destruct c as [a b]; simpl in *. subst b. do 3 f_equal. lia.
  - destruct (Hrest 0%nat s eq_refl) as [Hi Ho]. rewrite Z.add_0_r in Hi.
    simpl fold_left. rewrite Ho, Hi.
    rewrite (IH (n + 1) {| startIdx := startIdx c; endIdx := n |}).
    + simpl startIdx. do 3 f_equal. simpl List.length. lia.
    + intros k s' Hs'. destruct (Hrest (S k) s' Hs') as [Hi' Ho'].
      split; [lia | assumption].
    + simpl. lia.
Qed.

Lemma overlapSegments_all_overlap ss :
  indexed ss -> ss <> [] -> Forall (fun s => overlap s = true) ss ->
  overlapSegments ss =
  [ {| startIdx := 0; endIdx := Z.of_nat (List.length ss) - 1 |} ].
Proof.
  intros Hidx Hne Hall. destruct ss as [|s ss]; [congruence|].
  replace (Z.of_nat (List.length (s :: ss)) - 1)
    with (1 + Z.of_nat (List.length ss) - 1) by (cbn [List.length]; lia).
  rewrite Forall_forall in Hall. unfold overlapSegments. simpl fold_left.
  rewrite (Hall s (or_introl eq_refl)), (Hidx 0%nat s eq_refl).
  change (Z.of_nat 0) with 0.
  rewrite (fold_segmentStep_all_overlap ss 1 {| startIdx := 0; endIdx := 0 |}).
  - reflexivity.
  - intros k s' Hs'. split.
    + rewrite (Hidx (S k) s' Hs'). lia.
    + apply Hall. right. eapply nth_error_In; eassumption.
  - reflexivity.
Qed.

Lemma panel_slot_fields {intl : Intl} zone localZone workStart workEnd now p s :
  MeetingPanel.MeetingPanel zone localZone workStart workEnd now = Ok p ->
  In s (panelSlots p) ->
  localHourMinuteFromUtcMs (slotStart s) localZone = Ok (localLM s) /\
  localHourMinuteFromUtcMs (slotStart s) zone = Ok (otherLM s) /\
  localWork s = working (localLM s) workStart workEnd /\
  otherWork s = working (otherLM s) workStart workEnd /\
  overlap s = localWork s && otherWork s.
Proof.
  intros Hp Hin. apply In_nth_error in Hin. destruct Hin as [k Hk].
  pose proof (panel_slot _ _ _ _ _ _ _ _ Hp Hk) as Hat.
  apply slotAt_fields in Hat. tauto.
Qed.

Lemma panel_indexed {intl : Intl} zone localZone workStart workEnd now p :
  MeetingPanel.MeetingPanel zone localZone workStart workEnd now = Ok p ->
  indexed (panelSlots p) /\ List.length (panelSlots p) = 96%nat.
Proof.
  intros Hp. destruct (MeetingPanel_inv _ _ _ _ _ _ Hp) as (_ & Hss & _).
  split; [eapply slots_indexed; eassumption|].
  apply slots_inv in Hss. tauto.
Qed.

(** ** Windows the panel cannot serve, and the whole day *)

(** X1. A work window that does not run forward (end hour at or before the
    start hour, end hour other than 24), such as a night shift from 22 to 6,
    marks no slot as working on either side: the panel has no overlap
    segment, reports no three-hour overlap and no start. *)
Theorem backward_window_never_overlaps {intl : Intl} (zone localZone : string)
        (workStart workEnd now : Z) (p : Panel) :
  workEnd <= workStart -> workEnd <> 24 ->
  MeetingPanel.MeetingPanel zone localZone workStart workEnd now = Ok p ->
  Forall (fun s => localWork s = false /\ otherWork s = false /\ overlap s = false)
         (panelSlots p) /\
  panelSegments p = [] /\
  panelHasFull3h p = false /\
  panelEarliestFull3h p = None.
Proof.
  intros Hback H24 Hp.
  assert (Hnone : forall lm, working lm workStart workEnd = false).
  { intros lm. unfold working.
    destruct (Z.geb_spec (h lm) workStart); destruct (Z.ltb_spec (h lm) workEnd);
      try lia; destruct (Z.eqb_spec workEnd 24); try lia;
      simpl; rewrite ?andb_false_r; reflexivity. }
  assert (Hall : Forall (fun s => localWork s = false /\ otherWork s = false /\
                                  overlap s = false) (panelSlots p)).
  { apply Forall_forall. intros s Hs.
    destruct (panel_slot_fields _ _ _ _ _ _ _ Hp Hs) as (_ & _ & Hl & Ho & Hov).
    rewrite Hov, Hl, Ho, !Hnone. auto. }
  destruct (MeetingPanel_inv _ _ _ _ _ _ Hp) as (_ & _ & Hsegs & Hhas & Hear).
  assert (Hempty : panelSegments p = []).
  { rewrite Hsegs. apply overlapSegments_no_overlap.
    eapply Forall_impl; [|exact Hall]. intros s (_ & _ & Hs). exact Hs. }
  rewrite Hhas, Hear, Hempty. auto.
Qed.

Lemma backward_window_never_overlaps_witness :
  22 <= 22 /\ 6 <> 24 /\
  exists p,
    @MeetingPanel.MeetingPanel (FixedHost.host None) "UTC" "Asia/Kolkata" 22 6
                               FixedHost.sampleNow = Ok p /\
    panelSegments p = [].
Proof.
  split; [lia | split; [lia|]].
  destruct (@MeetingPanel_known (FixedHost.host None) "UTC" "Asia/Kolkata" 22 6
              FixedHost.sampleNow) as [p Hp].
  - apply (FixedHost_known None "UTC" 0); reflexivity.
  - apply (FixedHost_known None "Asia/Kolkata" 330); reflexivity.
  - exists p. split; [exact Hp|].
    apply (@backward_window_never_overlaps (FixedHost.host None) "UTC" "Asia/Kolkata"
             22 6 FixedHost.sampleNow p); [lia | lia | exact Hp].
Defined.

(** X2. With the window 0 to 24 and a host whose clock counts hours 0..23
    in both zones, every slot overlaps: the panel has the single segment
    0..95 (1440 minutes), reports a three-hour overlap, and the earliest
    start is the start of the reference day. *)
Theorem whole_day_window_is_one_segment {intl : Intl} (zone localZone : string)
        (now : Z) (p : Panel) :
  (forall ms parts, formatToParts zone ms = Ok parts -> 0 <= hour parts <= 23) ->
  (forall ms parts, formatToParts localZone ms = Ok parts -> 0 <= hour parts <= 23) ->
  MeetingPanel.MeetingPanel zone localZone 0 24 now = Ok p ->
  panelSegments p = [ {| startIdx := 0; endIdx := 95 |} ] /\
  totalMinutes (panelSegments p) = 1440 /\
  panelHasFull3h p = true /\
  panelEarliestFull3h p = Some (panelDayStart p).
Proof.
  intros Hz Hl Hp.
  destruct (panel_indexed _ _ _ _ _ _ Hp) as [Hidx Hlen].
  assert (Hall : Forall (fun s => overlap s = true) (panelSlots p)).
  { apply Forall_forall. intros s Hs.
    destruct (panel_slot_fields _ _ _ _ _ _ _ Hp Hs) as (Hlm & Hom & Hlw & How & Hov).
    apply localHourMinute_inv in Hlm, Hom.
    destruct Hlm as (pl & Hpl & Hlm). destruct Hom as (po & Hpo & Hom).
    apply Hl in Hpl. apply Hz in Hpo.
    rewrite Hov, Hlw, How, Hlm, Hom. unfold working; simpl.
    destruct (Z.geb_spec (hour pl) 0); destruct (Z.ltb_spec (hour pl) 24); try lia;
      destruct (Z.geb_spec (hour po) 0); destruct (Z.ltb_spec (hour po) 24); try lia;
      reflexivity. }
  destruct (MeetingPanel_inv _ _ _ _ _ _ Hp) as (_ & _ & Hsegs & Hhas & Hear).
  assert (Hone : panelSegments p = [ {| startIdx := 0; endIdx := 95 |} ]).
  { rewrite Hsegs, overlapSegments_all_overlap; try assumption.
    - rewrite Hlen. reflexivity.
    - intros Hnil. rewrite Hnil in Hlen. discriminate. }
  rewrite Hhas, Hear, Hone. repeat split; try reflexivity.
  simpl. f_equal. lia.
Qed.

Lemma whole_day_window_is_one_segment_witness :
  @MeetingPanel.MeetingPanel (FixedHost.host None) "Asia/Tokyo" "Europe/London" 0 24
                             FixedHost.sampleNow = Ok FixedHost.fullDayPanel /\
  panelSegments FixedHost.fullDayPanel = [ {| startIdx := 0; endIdx := 95 |} ].
Proof.
  assert (Hp : @MeetingPanel.MeetingPanel (FixedHost.host None) "Asia/Tokyo"
                 "Europe/London" 0 24 FixedHost.sampleNow = Ok FixedHost.fullDayPanel)
    by (vm_compute; reflexivity).
  assert (Hh : forall zone ms parts,
             @formatToParts (FixedHost.host None) zone ms = Ok parts ->
             0 <= hour parts <= 23).
  { intros zone ms parts. simpl. unfold FixedHost.wallClock.
    destruct (FixedHost.offsetOf zone) as [off|]; [|discriminate].
    destruct (civilFromDays ((ms + off * 60000) / msPerDay)) as [[y mo] d].
    intros H. injection H as <-. simpl.
    pose proof (Z.mod_pos_bound ((ms + off * 60000) / 3600000) 24 ltac:(lia)). lia. }
  split; [exact Hp|].
  destruct (@whole_day_window_is_one_segment (FixedHost.host None) _ _ _ _
              (Hh "Asia/Tokyo") (Hh "Europe/London") Hp) as [Hone _].
  exact Hone.
Defined.

(** X3. On a host whose clock prints the first hour of the day as hour 24,
    a slot read as 24:15, 24:30 or 24:45 is working for no window ending at
    or before 24, and a slot read as 24:00 is working exactly when the
    window ends at 24, whatever its start hour; the side's flag then decides
    nothing for the overlap unless the other side works. *)
Theorem hour_24_reading_of_slot {intl : Intl} (zone localZone : string)
        (workStart workEnd now : Z) (p : Panel) (s : Slot) :
  MeetingPanel.MeetingPanel zone localZone workStart workEnd now = Ok p ->
  In s (panelSlots p) -> workEnd <= 24 ->
  (h (localLM s) = 24 ->
     (localWork s = true <-> workEnd = 24 /\ m (localLM s) = 0) /\
     (m (localLM s) <> 0 -> overlap s = false)) /\
  (h (otherLM s) = 24 ->
     (otherWork s = true <-> workEnd = 24 /\ m (otherLM s) = 0) /\
     (m (otherLM s) <> 0 -> overlap s = false)).
Proof.
  intros Hp Hs Hwe.
  destruct (panel_slot_fields _ _ _ _ _ _ _ Hp Hs) as (_ & _ & Hlw & How & Hov).
  assert (H24 : forall lm, h lm = 24 ->
            (working lm workStart workEnd = true <-> workEnd = 24 /\ m lm = 0)).
  { intros lm Hh. rewrite working_spec. lia. }
  split; intros Hh.
  - split; [rewrite Hlw; apply H24; exact Hh|].
    intros Hm. rewrite Hov, Hlw.
    destruct (working (localLM s) workStart workEnd) eqn:Hw; [|reflexivity].
    apply H24 in Hw; [lia | exact Hh].
  - split; [rewrite How; apply H24; exact Hh|].
    intros Hm. rewrite Hov, How.
    destruct (working (otherLM s) workStart workEnd) eqn:Hw; [|apply andb_false_r].
    apply H24 in Hw; [lia | exact Hh].
Qed.

Lemma hour_24_reading_of_slot_witness :
  exists s,
    @MeetingPanel.MeetingPanel Host24.host "Asia/Tokyo" "Europe/London" 0 24
                               FixedHost.sampleNow = Ok Host24.fullDayPanel24 /\
    nth_error (panelSlots Host24.fullDayPanel24) 1 = Some s /\
    localLM s = {| h := 24; m := 15 |} /\
    overlap s = false /\
    panelSegments Host24.fullDayPanel24 =
      [ {| startIdx := 0; endIdx := 0 |}; {| startIdx := 4; endIdx := 60 |};
        {| startIdx := 64; endIdx := 95 |} ].
Proof.
  assert (Hp : @MeetingPanel.MeetingPanel Host24.host "Asia/Tokyo" "Europe/London"
                 0 24 FixedHost.sampleNow = Ok Host24.fullDayPanel24)
    by (vm_compute; reflexivity).
  destruct (nth_error (panelSlots Host24.fullDayPanel24) 1) as [s|] eqn:Hs;
    [|vm_compute in Hs; discriminate].
  assert (Hlm : localLM s = {| h := 24; m := 15 |})
    by (vm_compute in Hs; injection Hs as <-; reflexivity).
  exists s. split; [exact Hp|]. split; [reflexivity|]. split; [exact Hlm|].
  split; [|vm_compute; reflexivity].
  destruct (@hour_24_reading_of_slot Host24.host _ _ _ _ _ _ s Hp
              (nth_error_In _ _ Hs) ltac:(lia)) as [Hl _].
  apply Hl; rewrite Hlm; simpl; [reflexivity | lia].
Defined.

(** ** Passing the two zones the other way round *)

Lemma slotAt_swap {intl : Intl} uds zone localZone ws we idx s :
  slotAt uds zone localZone ws we idx = Ok s ->
  slotAt uds localZone zone ws we idx = Ok (swapSlot s).
Proof.
  unfold slotAt.
  destruct (localHourMinuteFromUtcMs (uds + idx * 15 * 60 * 1000) localZone)
    as [lm|e]; simpl; [|discriminate].
  destruct (localHourMinuteFromUtcMs (uds + idx * 15 * 60 * 1000) zone)
    as [om|e]; simpl; [|discriminate].
  intros H. injection H as <-. reflexivity.
Qed.

Lemma slotsLoop_swap {intl : Intl} uds zone localZone ws we fuel :
  forall idx arr out,
  slotsLoop uds zone localZone ws we fuel idx arr = Ok out ->
  slotsLoop uds localZone zone ws we fuel idx (map swapSlot arr)
  = Ok (map swapSlot out).
Proof.
  induction fuel as [|fuel IH]; intros idx arr out H; simpl in *.
  - injection H as <-. reflexivity.
  - destruct (idx <? 96); [|injection H as <-; reflexivity].
    inv_bind H. rewrite (slotAt_swap _ _ _ _ _ _ _ Ha). simpl.
    apply IH in H. rewrite map_app in H. exact H.
Qed.

Lemma overlapSegments_swap ss :
  Forall (fun s => overlap s = localWork s && otherWork s) ss ->
  overlapSegments (map swapSlot ss) = overlapSegments ss.
Proof.
  intros Hall. apply overlapSegments_ext.
  induction Hall as [|s ss Hs _ IH]; simpl; constructor; [|exact IH].
  split; [reflexivity|]. simpl. rewrite Hs. apply andb_comm.
Qed.

(** X4. The overlap does not depend on which zone is passed as [zone] and
    which as [localZone]: when the panel is computed for one order it is
    computed for the other, slot by slot the two sides are exchanged and the
    overlap flag is the same, and the segments, the three-hour flag and the
    earliest start are equal. *)
Theorem swapping_zones_keeps_overlap {intl : Intl} (zone localZone : string)
        (workStart workEnd now : Z) (p : Panel) :
  MeetingPanel.MeetingPanel zone localZone workStart workEnd now = Ok p ->
  exists p',
    MeetingPanel.MeetingPanel localZone zone workStart workEnd now = Ok p' /\
    panelSlots p' = map swapSlot (panelSlots p) /\
    Forall2 (fun s s' => slotStart s' = slotStart s /\
                         localLM s' = otherLM s /\ otherLM s' = localLM s /\
                         overlap s' = overlap s)
            (panelSlots p) (panelSlots p') /\
    panelSegments p' = panelSegments p /\
    panelHasFull3h p' = panelHasFull3h p /\
    panelEarliestFull3h p' = panelEarliestFull3h p.
Proof.
  intros Hp.
  destruct (MeetingPanel_inv _ _ _ _ _ _ Hp) as (Hd & Hss & Hsegs & Hhas & Hear).
  assert (Hflag : Forall (fun s => overlap s = localWork s && otherWork s)
                         (panelSlots p)).
  { apply Forall_forall. intros s Hs.
    destruct (panel_slot_fields _ _ _ _ _ _ _ Hp Hs) as (_ & _ & _ & _ & Hov).
    exact Hov. }
  pose proof (slotsLoop_swap _ _ _ _ _ _ _ _ _ Hss) as Hswap. simpl map in Hswap.
  assert (Hp' : exists p',
             MeetingPanel.MeetingPanel localZone zone workStart workEnd now = Ok p' /\
             panelDayStart p' = utcDayStartOf now /\
             panelSlots p' = map swapSlot (panelSlots p)).
  { unfold MeetingPanel.MeetingPanel, slots. rewrite Hswap. simpl.
    eexists. split; [reflexivity|]. simpl. auto. }
  destruct Hp' as (p' & Hp' & Hd' & Hslots').
  destruct (MeetingPanel_inv _ _ _ _ _ _ Hp') as (_ & _ & Hsegs' & Hhas' & Hear').
  assert (Hsame : panelSegments p' = panelSegments p).
  { rewrite Hsegs', Hsegs, Hslots'. apply overlapSegments_swap. exact Hflag. }
  exists p'. split; [exact Hp'|]. split; [exact Hslots'|]. split.
  - rewrite Hslots'. clear - Hflag.
    induction Hflag as [|s ss Hs _ IH]; simpl; constructor; [|exact IH].
    simpl. rewrite Hs. repeat split; try reflexivity. apply andb_comm.
  - split; [exact Hsame|]. rewrite Hhas', Hear', Hsame, Hd', Hhas, Hear, Hd. auto.
Qed.

Lemma swapping_zones_keeps_overlap_witness :
  @MeetingPanel.MeetingPanel (FixedHost.host None) "UTC" "Asia/Kolkata" 9 17
                             FixedHost.sampleNow = Ok FixedHost.samplePanel /\
  exists p',
    @MeetingPanel.MeetingPanel (FixedHost.host None) "Asia/Kolkata" "UTC" 9 17
                               FixedHost.sampleNow = Ok p' /\
    panelSegments p' = panelSegments FixedHost.samplePanel.
Proof.
  assert (Hp : @MeetingPanel.MeetingPanel (FixedHost.host None) "UTC" "Asia/Kolkata"
                 9 17 FixedHost.sampleNow = Ok FixedHost.samplePanel)
    by (vm_compute; reflexivity).
  split; [exact Hp|].
  destruct (@swapping_zones_keeps_overlap (FixedHost.host None) _ _ _ _ _ _ Hp)
    as (p' & Hp' & _ & _ & Hsegs & _).
  exists p'. split; assumption.
Defined.

(** ** How much overlap the segments hold *)

Lemma totalMinutes_app a b :
  totalMinutes (a ++ b) = totalMinutes a + totalMinutes b.
Proof.
  unfold totalMinutes. induction a as [|g a IH]; simpl; [reflexivity|].
  rewrite IH. lia.
Qed.

Lemma scanCount_fold rest : forall n cnt st,
  scanCount n cnt st ->
  (forall k s, nth_error rest k = Some s -> i s = n + Z.of_nat k) ->
  scanCount (n + Z.of_nat (List.length rest)) (cnt + overlapCount rest)
            (fold_left segmentStep rest st).
Proof.
  unfold overlapCount.
  induction rest as [|s rest IH]; intros n cnt st Hinv Hidx.
  - simpl. rewrite !Z.add_0_r. exact Hinv.
  - simpl fold_left.
    replace (n + Z.of_nat (List.length (s :: rest)))
      with ((n + 1) + Z.of_nat (List.length rest)) by (cbn [List.length]; lia).
    replace (cnt + Z.of_nat (List.length (filter overlap (s :: rest))))
      with ((cnt + if overlap s then 1 else 0)
            + Z.of_nat (List.length (filter overlap rest)))
      by (cbn [filter]; destruct (overlap s); cbn [List.length]; lia).
    apply IH.
    + pose proof (Hidx 0%nat s eq_refl) as Hi. rewrite Z.add_0_r in Hi.
      destruct st as [segs cur]. destruct Hinv as [Hsum Hend].
      cbn [fst snd] in Hsum, Hend. unfold segmentStep, scanCount.
      destruct (overlap s); destruct cur as [c|]; cbn [fst snd].
      * unfold durationMinutes in *. cbn [startIdx endIdx]. split; lia.
      * unfold durationMinutes in *. cbn [startIdx endIdx]. split; lia.
      * rewrite totalMinutes_app. unfold totalMinutes at 2. cbn [fold_right].
        split; [lia | exact I].
      * split; [lia | exact I].
    + intros k s' Hs'. rewrite (Hidx (S k) s' Hs'). lia.
Qed.

Lemma overlapSegments_total ss :
  indexed ss -> totalMinutes (overlapSegments ss) = 15 * overlapCount ss.
Proof.
  intros Hidx.
  assert (Hinv : scanCount (0 + Z.of_nat (List.length ss)) (0 + overlapCount ss)
                           (fold_left segmentStep ss ([], None))).
  { apply scanCount_fold.
    - split; cbn [fst snd]; [reflexivity | exact I].
    - intros k s Hs. rewrite (Hidx k s Hs). lia. }
  unfold overlapSegments.
  destruct (fold_left segmentStep ss ([], None)) as [segs cur].
  destruct Hinv as [Hsum _]. cbn [fst snd] in Hsum.
  destruct cur as [c|].
  - rewrite totalMinutes_app. unfold totalMinutes at 2. cbn [fold_right]. lia.
  - lia.
Qed.

Lemma gapped_segments_count segs : forall lo hi,
  lo <= hi + 2 ->
  StronglySorted gapBefore segs ->
  Forall (fun g => lo <= startIdx g /\ startIdx g <= endIdx g /\ endIdx g <= hi) segs ->
  2 * Z.of_nat (List.length segs) <= hi - lo + 2.
Proof.
  induction segs as [|a segs IH]; intros lo hi Hlo Hs Hb.
  - simpl. lia.
  - apply StronglySorted_inv in Hs. destruct Hs as [Hs Ha].
    inversion Hb as [|? ? (Ha1 & Ha2 & Ha3) Hb']; subst.
    assert (IH' := IH (endIdx a + 2) hi ltac:(lia) Hs).
    cbn [List.length]. rewrite Nat2Z.inj_succ.
    assert (2 * Z.of_nat (List.length segs) <= hi - (endIdx a + 2) + 2); [|lia].
    apply IH'. rewrite Forall_forall in *. intros g Hg.
    specialize (Ha g Hg). specialize (Hb' g Hg). unfold gapBefore in Ha. lia.
Qed.

Lemma totalMinutes_ge segs g :
  Forall (fun g' => startIdx g' <= endIdx g') segs -> In g segs ->
  0 <= totalMinutes segs /\ durationMinutes g <= totalMinutes segs.
Proof.
  unfold totalMinutes. induction 1 as [|a segs Ha Hall IH]; intros Hin; [destruct Hin|].
  assert (Hpos : 0 <= fold_right (fun g acc => durationMinutes g + acc) 0 segs).
  { clear - Hall. induction Hall as [|b segs Hb _ IH]; cbn [fold_right]; [lia|].
    assert (0 <= durationMinutes b) by (unfold durationMinutes; lia). lia. }
  assert (Ha' : 0 <= durationMinutes a) by (unfold durationMinutes; lia).
  cbn [fold_right]. destruct Hin as [<-|Hin]; [lia|].
  specialize (IH Hin). lia.
Qed.

(** X5. The segments hold exactly the overlapping slots: their durations
    add up to 15 minutes per slot whose overlap flag is set, so to at most
    1440 minutes; there are at most 48 segments; and a three-hour overlap
    needs at least 12 overlapping slots in the day. *)
Theorem segments_hold_the_overlapping_slots {intl : Intl} (zone localZone : string)
        (workStart workEnd now : Z) (p : Panel) :
  MeetingPanel.MeetingPanel zone localZone workStart workEnd now = Ok p ->
  totalMinutes (panelSegments p) = 15 * overlapCount (panelSlots p) /\
  0 <= totalMinutes (panelSegments p) <= 1440 /\
  Z.of_nat (List.length (panelSegments p)) <= 48 /\
  (panelHasFull3h p = true -> 12 <= overlapCount (panelSlots p)).
Proof.
  intros Hp. destruct (panel_indexed _ _ _ _ _ _ Hp) as [Hidx Hlen].
  destruct (MeetingPanel_inv _ _ _ _ _ _ Hp) as (_ & _ & Hsegs & Hhas & _).
  pose proof (MeetingPanel_runs _ _ _ _ _ _ Hp) as [Hs He _].
  assert (Htot : totalMinutes (panelSegments p) = 15 * overlapCount (panelSlots p))
    by (rewrite Hsegs; apply overlapSegments_total; exact Hidx).
  assert (Hcnt : 0 <= overlapCount (panelSlots p) <= 96).
  { unfold overlapCount.
    pose proof (filter_length_le overlap (panelSlots p)) as Hle. lia. }
  assert (Hord : Forall (fun g => startIdx g <= endIdx g) (panelSegments p)).
  { eapply Forall_impl; [|exact He]. intros g (Hg & _). lia. }
  split; [exact Htot|]. split; [lia|]. split.
  - assert (2 * Z.of_nat (List.length (panelSegments p)) <= 95 - 0 + 2); [|lia].
    apply gapped_segments_count; [lia | exact Hs |].
    eapply Forall_impl; [|exact He]. intros g (Hg1 & Hg2 & _). lia.
  - rewrite Hhas, hasFull3h_spec. intros (g & Hg & Hq).
    destruct (totalMinutes_ge _ g Hord Hg) as [_ Hle].
    unfold qualifies in Hq. lia.
Qed.

Lemma segments_hold_the_overlapping_slots_witness :
  @MeetingPanel.MeetingPanel (FixedHost.host None) "UTC" "Asia/Kolkata" 9 17
                             FixedHost.sampleNow = Ok FixedHost.samplePanel /\
  overlapCount (panelSlots FixedHost.samplePanel) = 10 /\
  totalMinutes (panelSegments FixedHost.samplePanel)
  = 15 * overlapCount (panelSlots FixedHost.samplePanel).
Proof.
  assert (Hp : @MeetingPanel.MeetingPanel (FixedHost.host None) "UTC" "Asia/Kolkata"
                 9 17 FixedHost.sampleNow = Ok FixedHost.samplePanel)
    by (vm_compute; reflexivity).
  split; [exact Hp|]. split; [vm_compute; reflexivity|].
  destruct (@segments_hold_the_overlapping_slots (FixedHost.host None) _ _ _ _ _ _ Hp)
    as [Htot _].
  exact Htot.
Defined.

(** ** What the panel renders *)

(** X6. From the second day of 1970 on, the panel renders the two start
    times exactly when it announces a full three-hour overlap: the guard
    [earliestFull3h && ...] and the flag [hasFull3h] agree, because the
    earliest start is then a positive number. *)
Theorem start_times_rendered_with_headline {intl : Intl} (zone localZone : string)
        (workStart workEnd now : Z) (p : Panel) :
  msPerDay <= now ->
  MeetingPanel.MeetingPanel zone localZone workStart workEnd now = Ok p ->
  MeetingPanelView.rendersEarliestStart (panelEarliestFull3h p) = panelHasFull3h p /\
  (forall t, panelEarliestFull3h p = Some t -> msPerDay <= t).
Proof.
  intros Hnow Hp.
  destruct (MeetingPanel_inv _ _ _ _ _ _ Hp) as (Hd & _ & _ & Hhas & Hear).
  pose proof (MeetingPanel_runs _ _ _ _ _ _ Hp) as [_ He _].
  assert (Hday : msPerDay <= panelDayStart p).
  { rewrite Hd, utcDayStartOf_floor by (unfold msPerDay in *; lia).
    assert (1 <= now / msPerDay)
      by (apply Z.div_le_lower_bound; unfold msPerDay in *; lia).
    unfold msPerDay in *. lia. }
  assert (Hpos : forall t, panelEarliestFull3h p = Some t -> msPerDay <= t).
  { intros t Ht. rewrite Hear in Ht. apply earliestFull3h_Some in Ht.
    destruct Ht as (pre & g & post & Hsegs & _ & _ & ->).
    assert (Hin : In g (panelSegments p))
      by (rewrite Hsegs; apply in_or_app; right; left; reflexivity).
    rewrite Forall_forall in He. destruct (He g Hin) as (Hg & _). lia. }
  split; [|exact Hpos].
  rewrite Hear in Hpos |- *.
  destruct (earliestFull3h (panelDayStart p) (panelSegments p)) as [t|] eqn:Ht; simpl.
  - specialize (Hpos t eq_refl).
    destruct (Z.eqb_spec t 0) as [->|_]; [unfold msPerDay in Hpos; lia|]. simpl.
    symmetry. rewrite Hhas. destruct (hasFull3h (panelSegments p)) eqn:Hb;
      [reflexivity|].
    exfalso. apply earliestFull3h_Some in Ht.
    destruct Ht as (pre & g & post & Hsegs & _ & Hq & _).
    assert (hasFull3h (panelSegments p) = true).
    { apply hasFull3h_spec. exists g. split; [|exact Hq].
      rewrite Hsegs. apply in_or_app. right; left; reflexivity. }
    congruence.
  - symmetry. rewrite Hhas. destruct (hasFull3h (panelSegments p)) eqn:Hb;
      [|reflexivity].
    exfalso. apply hasFull3h_spec in Hb. destruct Hb as (g & Hg & Hq).
    rewrite earliestFull3h_None in Ht. exact (Ht g Hg Hq).
Qed.

Lemma start_times_rendered_with_headline_witness :
  msPerDay <= FixedHost.sampleNow /\
  @MeetingPanel.MeetingPanel (FixedHost.host None) "Asia/Tokyo" "Europe/London" 0 24
                             FixedHost.sampleNow = Ok FixedHost.fullDayPanel /\
  MeetingPanelView.rendersEarliestStart (panelEarliestFull3h FixedHost.fullDayPanel)
  = panelHasFull3h FixedHost.fullDayPanel.
Proof.
  assert (Hnow : msPerDay <= FixedHost.sampleNow) by (vm_compute; discriminate).
  assert (Hp : @MeetingPanel.MeetingPanel (FixedHost.host None) "Asia/Tokyo"
                 "Europe/London" 0 24 FixedHost.sampleNow = Ok FixedHost.fullDayPanel)
    by (vm_compute; reflexivity).
  split; [exact Hnow | split; [exact Hp|]].
  destruct (@start_times_rendered_with_headline (FixedHost.host None)
              _ _ _ _ _ _ Hnow Hp) as [Hr _].
  exact Hr.
Defined.

(** On the first day of 1970 the guard can fail where the flag holds: a
    segment starting at slot 0 starts at instant 0, which is falsy. *)
Example epoch_day_hides_start_times :
  exists p,
    @MeetingPanel.MeetingPanel (FixedHost.host None) "UTC" "Europe/London" 0 24 0
    = Ok p /\
    panelHasFull3h p = true /\
    panelEarliestFull3h p = Some 0 /\
    MeetingPanelView.rendersEarliestStart (panelEarliestFull3h p) = false.
Proof.
  eexists. split; [vm_compute; reflexivity|]. repeat split; reflexivity.
Qed.

(** ** Offset resolution *)

(** Rebuilding a UTC instant from the wall-clock fields of [t] gives [t]
    without its milliseconds, moved by nineteen centuries when the year of
    [t] is one of 0..99. *)
Lemma DateUTC_wallFields t s :
  DateUTC (year (wallFields t)) (month (wallFields t) - 1) (day (wallFields t))
          (hour (wallFields t)) (minute (wallFields t)) s
  = t - t mod 1000 - ((t / 1000) mod 60) * 1000 + s * 1000
    + twoDigitYearShift (year (wallFields t)) (month (wallFields t)) * msPerDay.
Proof.
  unfold wallFields.
  pose proof (daysFromCivil_civilFromDays (t / msPerDay)) as Hrt.
  destruct (civilFromDays (t / msPerDay)) as [[y mo] d].
  cbn [year month day hour minute second].
  destruct Hrt as (Hrt & Hmo & Hd & _). unfold DateUTC, twoDigitYearShift.
  assert (Hm1 : (mo - 1) / 12 = 0) by (apply Z.div_small; lia).
  assert (Hm2 : (mo - 1) mod 12 + 1 = mo) by (rewrite Z.mod_small by lia; lia).
  rewrite Hm1, Hm2.
  assert (Hlin : forall yr, daysFromCivil yr mo 1 + d - 1
                            = daysFromCivil y mo d
                              + (daysFromCivil yr mo 1 - daysFromCivil y mo 1)).
  { intros yr. assert (daysFromCivil y mo 1 + d - 1 = daysFromCivil y mo d)
      by (unfold daysFromCivil; lia). lia. }
  rewrite Hlin, Hrt.
  destruct ((0 <=? y) && (y <=? 99));
    [replace (1900 + y + 0) with (1900 + y) by lia
    |replace (y + 0) with y by lia; rewrite Z.sub_diag];
    unfold msPerDay; Z.to_euclidean_division_equations; lia.
Qed.

Lemma twoDigitYearShift_bounds y mo :
  (~ 0 <= y <= 99 -> twoDigitYearShift y mo = 0) /\
  (0 <= y <= 99 -> 693960 <= twoDigitYearShift y mo <= 693961).
Proof.
  unfold twoDigitYearShift. split; intros Hy.
  - destruct (Z.leb_spec 0 y); [|reflexivity].
    destruct (Z.leb_spec y 99); [lia|reflexivity].
  - destruct (Z.leb_spec 0 y); [|lia]. destruct (Z.leb_spec y 99); [|lia].
    cbn [andb]. unfold daysFromCivil.
    destruct (mo <=? 2); destruct (mo >? 2);
      Z.to_euclidean_division_equations; lia.
Qed.

Lemma roundDiv_minutes off r :
  0 <= r < 1000 -> roundDiv (off * 60000 - r) 60000 = off.
Proof.
  intros Hr. unfold roundDiv.
  replace (2 * (off * 60000 - r) + 60000)
    with ((60000 - 2 * r) + off * (2 * 60000)) by lia.
  rewrite Z.div_add by lia. rewrite Z.div_small by lia. lia.
Qed.

Lemma wallFields_hour_second t :
  hour (wallFields t) = (t / 3600000) mod 24 /\
  minute (wallFields t) = (t / 60000) mod 60 /\
  second (wallFields t) = (t / 1000) mod 60.
Proof.
  unfold wallFields. destruct (civilFromDays (t / msPerDay)) as [[y mo] d].
  simpl. auto.
Qed.

Lemma resolved_offset_wallFields off now :
  roundDiv (DateUTC (year (wallFields (now + off * 60000)))
                    (month (wallFields (now + off * 60000)) - 1)
                    (day (wallFields (now + off * 60000)))
                    (hour (wallFields (now + off * 60000)))
                    (minute (wallFields (now + off * 60000)))
                    (second (wallFields (now + off * 60000))) - now) 60000
  = off + 1440 * twoDigitYearShift (year (wallFields (now + off * 60000)))
                                   (month (wallFields (now + off * 60000))).
Proof.
  set (t := now + off * 60000) in *.
  rewrite (DateUTC_wallFields t).
  set (shift := twoDigitYearShift (year (wallFields t)) (month (wallFields t))).
  destruct (wallFields_hour_second t) as (_ & _ & ->).
  replace (t - t mod 1000 - (t / 1000) mod 60 * 1000 + (t / 1000) mod 60 * 1000
           + shift * msPerDay - now)
    with ((off + 1440 * shift) * 60000 - t mod 1000)
    by (subst t; unfold msPerDay; lia).
  apply roundDiv_minutes. apply Z.mod_pos_bound. lia.
Qed.

(** X7. When the host reads a zone [off] minutes ahead of UTC (wall-clock
    fields of the instant shifted by [off] minutes, hours 0..23),
    [tzOffsetMinutes] returns exactly [off] at every instant whose year in
    the zone lies outside 0..99: the milliseconds the fields drop are
    absorbed by rounding to the minute.  At an instant whose year in the zone
    is one of 0..99, which [Date.UTC] reads as 1900 + year, it returns [off]
    plus the minutes of 693960 or 693961 days. *)
Theorem tzOffsetMinutes_recovers_offset {intl : Intl} (zone : string) (off now : Z) :
  formatToParts zone now = Ok (wallFields (now + off * 60000)) ->
  (~ 0 <= year (wallFields (now + off * 60000)) <= 99 ->
   tzOffsetMinutes zone now = Ok off) /\
  (0 <= year (wallFields (now + off * 60000)) <= 99 ->
   exists days, 693960 <= days <= 693961 /\
                tzOffsetMinutes zone now = Ok (off + 1440 * days)).
Proof.
  intros Hfmt.
  assert (Hres : tzOffsetMinutes zone now =
                 Ok (off + 1440 * twoDigitYearShift
                                    (year (wallFields (now + off * 60000)))
                                    (month (wallFields (now + off * 60000))))).
  { unfold tzOffsetMinutes. rewrite Hfmt. cbn [bind]. f_equal.
    apply resolved_offset_wallFields. }
  destruct (twoDigitYearShift_bounds (year (wallFields (now + off * 60000)))
                                     (month (wallFields (now + off * 60000))))
    as [Hout Hin].
  split; intros Hy.
  - rewrite Hres, (Hout Hy). f_equal. lia.
  - eexists. split; [exact (Hin Hy) | exact Hres].
Qed.

Lemma tzOffsetMinutes_recovers_offset_witness :
  @formatToParts (FixedHost.host None) "Asia/Kolkata" 1764050400123
  = Ok (wallFields (1764050400123 + 330 * 60000)) /\
  year (wallFields (1764050400123 + 330 * 60000)) = 2025 /\
  @tzOffsetMinutes (FixedHost.host None) "Asia/Kolkata" 1764050400123 = Ok 330.
Proof.
  assert (H1 : @formatToParts (FixedHost.host None) "Asia/Kolkata" 1764050400123
               = Ok (wallFields (1764050400123 + 330 * 60000)))
    by (vm_compute; reflexivity).
  assert (H2 : year (wallFields (1764050400123 + 330 * 60000)) = 2025)
    by (vm_compute; reflexivity).
  split; [exact H1 | split; [exact H2|]].
  destruct (@tzOffsetMinutes_recovers_offset (FixedHost.host None) _ _ _ H1)
    as [Hout _].
  apply Hout. rewrite H2. lia.
Defined.

(** X8. When the host prints the first hour of the day as hour 24 of the
    same date, [tzOffsetMinutes] is a whole day too large during that hour:
    at an instant whose year in the zone lies outside 0..99 it returns
    [off + 1440] there and [off] in the other hours. *)
Theorem tzOffsetMinutes_on_hour_24 {intl : Intl} (zone : string) (off now : Z) :
  formatToParts zone now = Ok (wallFields24 (now + off * 60000)) ->
  ~ 0 <= year (wallFields (now + off * 60000)) <= 99 ->
  tzOffsetMinutes zone now =
  Ok (if ((now + off * 60000) / 3600000) mod 24 =? 0 then off + 1440 else off).
Proof.
  intros Hfmt Hyear. unfold tzOffsetMinutes. rewrite Hfmt.
  unfold wallFields24. cbn [bind year month day hour minute second].
  set (t := now + off * 60000) in *.
  pose proof (DateUTC_wallFields t (second (wallFields t))) as Hutc.
  destruct (twoDigitYearShift_bounds (year (wallFields t)) (month (wallFields t)))
    as [Hout _].
  rewrite (Hout Hyear), Z.mul_0_l, Z.add_0_r in Hutc.
  destruct (wallFields_hour_second t) as (Hh & _ & Hs).
  rewrite Hh. rewrite Hh in Hutc. f_equal.
  pose proof (Z.mod_pos_bound t 1000 ltac:(lia)) as Hr.
  destruct (Z.eqb_spec ((t / 3600000) mod 24) 0) as [H0|H0].
  - assert (Hshift :
      DateUTC (year (wallFields t)) (month (wallFields t) - 1) (day (wallFields t))
              24 (minute (wallFields t)) (second (wallFields t))
      = DateUTC (year (wallFields t)) (month (wallFields t) - 1) (day (wallFields t))
                ((t / 3600000) mod 24) (minute (wallFields t)) (second (wallFields t))
        + 86400000).
    { rewrite H0. unfold DateUTC, msPerDay. lia. }
    rewrite Hshift, Hutc, Hs.
    replace (t - t mod 1000 - (t / 1000) mod 60 * 1000 + (t / 1000) mod 60 * 1000
             + 86400000 - now)
      with ((off + 1440) * 60000 - t mod 1000) by (subst t; lia).
    apply roundDiv_minutes. exact Hr.
  - rewrite Hutc, Hs.
    replace (t - t mod 1000 - (t / 1000) mod 60 * 1000 + (t / 1000) mod 60 * 1000 - now)
      with (off * 60000 - t mod 1000) by (subst t; lia).
    apply roundDiv_minutes. exact Hr.
Qed.

Lemma tzOffsetMinutes_on_hour_24_witness :
  @formatToParts Host24.host "Asia/Kolkata" 1764096300000
  = Ok (wallFields24 (1764096300000 + 330 * 60000)) /\
  year (wallFields (1764096300000 + 330 * 60000)) = 2025 /\
  @tzOffsetMinutes Host24.host "Asia/Kolkata" 1764096300000 = Ok (330 + 1440).
Proof.
  assert (H1 : @formatToParts Host24.host "Asia/Kolkata" 1764096300000
               = Ok (wallFields24 (1764096300000 + 330 * 60000)))
    by (vm_compute; reflexivity).
  assert (H2 : year (wallFields (1764096300000 + 330 * 60000)) = 2025)
    by (vm_compute; reflexivity).
  assert (H3 : ~ 0 <= year (wallFields (1764096300000 + 330 * 60000)) <= 99)
    by (rewrite H2; lia).
  split; [exact H1 | split; [exact H2|]].
  rewrite (@tzOffsetMinutes_on_hour_24 Host24.host _ _ _ H1 H3).
  vm_compute. reflexivity.
Defined.

(** ** [localToUtcMs] *)

(** X9. [localToUtcMs] inverts the wall clock of a zone at a constant
    offset: given the date, hour and minute that the zone reads at a
    whole-minute instant [t] of a year outside 0..99, it returns [t],
    whatever instant the host's own [Date] constructor makes of these
    fields, as long as that instant too falls in a year outside 0..99 in the
    zone. *)
Theorem localToUtcMs_inverts_wall_clock {intl : Intl}
        (newDate : Z -> Z -> Z -> Z -> Z -> Z) (zone : string) (off t : Z) :
  (forall ms, formatToParts zone ms = Ok (wallFields (ms + off * 60000))) ->
  ~ 0 <= year (wallFields (t + off * 60000)) <= 99 -> t mod 60000 = 0 ->
  ~ 0 <= year (wallFields
                 (newDate (year (wallFields (t + off * 60000)))
                          (month (wallFields (t + off * 60000)) - 1)
                          (day (wallFields (t + off * 60000)))
                          (hour (wallFields (t + off * 60000)))
                          (minute (wallFields (t + off * 60000))) + off * 60000))
       <= 99 ->
  TimeUtilsLocal.localToUtcMs newDate zone
    (year (wallFields (t + off * 60000))) (month (wallFields (t + off * 60000)))
    (day (wallFields (t + off * 60000))) (hour (wallFields (t + off * 60000)))
    (minute (wallFields (t + off * 60000))) = Ok t.
Proof.
  intros Hfmt Hyear Hmin Hhost. unfold TimeUtilsLocal.localToUtcMs.
  set (T := t + off * 60000) in *.
  set (n := newDate (year (wallFields T)) (month (wallFields T) - 1)
                    (day (wallFields T)) (hour (wallFields T))
                    (minute (wallFields T))) in *.
  assert (Hoff : tzOffsetMinutes zone n = Ok off).
  { unfold tzOffsetMinutes. rewrite Hfmt. cbn [bind]. f_equal.
    rewrite resolved_offset_wallFields.
    destruct (twoDigitYearShift_bounds (year (wallFields (n + off * 60000)))
                                       (month (wallFields (n + off * 60000))))
      as [Hout _].
    rewrite (Hout Hhost). lia. }
  rewrite Hoff. cbn [bind]. f_equal.
  rewrite (DateUTC_wallFields T 0).
  destruct (twoDigitYearShift_bounds (year (wallFields T)) (month (wallFields T)))
    as [Hout _].
  rewrite (Hout Hyear).
  assert (HT : T mod 60000 = 0).
  { subst T. rewrite Z.add_mod, Hmin, Z.mod_mul by lia. reflexivity. }
  assert (T mod 1000 = 0 /\ (T / 1000) mod 60 = 0) as [H1 H2]
    by (Z.to_euclidean_division_equations; lia).
  rewrite H1, H2. subst T. lia.
Qed.

Lemma localToUtcMs_inverts_wall_clock_witness :
  (forall ms, @formatToParts (FixedHost.host None) "Asia/Kolkata" ms
              = Ok (wallFields (ms + 330 * 60000))) /\
  @TimeUtilsLocal.localToUtcMs (FixedHost.host None) newDateUTC "Asia/Kolkata"
     2025 11 25 11 30 = Ok 1764050400000.
Proof.
  assert (Hfmt : forall ms, @formatToParts (FixedHost.host None) "Asia/Kolkata" ms
                            = Ok (wallFields (ms + 330 * 60000))).
  { intros ms. cbn [formatToParts FixedHost.host]. unfold FixedHost.wallClock.
    change (FixedHost.offsetOf "Asia/Kolkata") with (Some 330).
    unfold wallFields.
    destruct (civilFromDays ((ms + 330 * 60000) / msPerDay)) as [[y mo] d].
    reflexivity. }
  split; [exact Hfmt|].
  assert (Hfields : wallFields (1764050400000 + 330 * 60000)
                    = {| year := 2025; month := 11; day := 25;
                         hour := 11; minute := 30; second := 0 |})
    by (vm_compute; reflexivity).
  assert (Hhost : year (wallFields (newDateUTC 2025 (11 - 1) 25 11 30 + 330 * 60000))
                  = 2025)
    by (vm_compute; reflexivity).
  pose proof (@localToUtcMs_inverts_wall_clock (FixedHost.host None) newDateUTC
                "Asia/Kolkata" 330 1764050400000 Hfmt) as H.
  rewrite Hfields in H. cbn [year month day hour minute] in H.
  apply H; [lia | reflexivity | rewrite Hhost; lia].
Defined.

(** ** [continentOf] *)

Lemma prefix_app p : forall z, prefix p z = true -> exists r, z = (p ++ r)%string.
Proof.
  induction p as [|c p IH]; intros z H.
  - exists z. reflexivity.
  - destruct z as [|c' z]; simpl in H; [discriminate|].
    destruct (ascii_dec c c') as [<-|]; [|discriminate].
    destruct (IH z H) as [r ->]. exists r. reflexivity.
Qed.

Lemma prefix_append p r : prefix p (p ++ r) = true.
Proof.
  induction p as [|c p IH]; simpl; [destruct r; reflexivity|].
  destruct (ascii_dec c c); [exact IH | congruence].
Qed.

Lemma includes_unfold k s :
  includes k s = prefix k s ||
                 match s with
                 | EmptyString => false
                 | String _ s' => includes k s'
                 end.
Proof. destruct s; reflexivity. Qed.

(** [includes k s] holds exactly when [k] occurs in [s]. *)
Lemma includes_spec k s :
  includes k s = true <-> exists a b, s = (a ++ k ++ b)%string.
Proof.
  split.
  - induction s as [|c s IH]; rewrite includes_unfold; intros H.
    + rewrite orb_false_r in H. apply prefix_app in H. destruct H as [r Hr].
      exists EmptyString, r. exact Hr.
    + apply orb_true_iff in H. destruct H as [H|H].
      * apply prefix_app in H. destruct H as [r Hr]. exists EmptyString, r. exact Hr.
      * destruct (IH H) as (a & b & ->). exists (String c a), b. reflexivity.
  - intros (a & b & ->). induction a as [|c a IH].
    + rewrite includes_unfold. simpl append. rewrite prefix_append. reflexivity.
    + simpl append. rewrite includes_unfold. cbv iota. rewrite IH. apply orb_true_r.
Qed.

Lemma existsb_false {A : Type} (f : A -> bool) (l : list A) :
  existsb f l = false <-> forall x, In x l -> f x = false.
Proof.
  induction l as [|a l IH]; simpl.
  - split; [intros _ x [] | reflexivity].
  - rewrite orb_false_iff, IH. split.
    + intros [Ha Hl] x [<-|Hx]; auto.
    + intros H. split; [apply H; left; reflexivity|]. intros x Hx. apply H. right; exact Hx.
Qed.

Lemma continentOf_America r :
  continentOf ("America/" ++ r) =
  if existsb (fun k => includes k ("America/" ++ r)%string) southTokens
  then "South America" else "North America".
Proof. destruct r; reflexivity. Qed.

Ltac continent_case H :=
  let r := fresh "r" in
  apply prefix_app in H; destruct H as [r ->]; destruct r;
  repeat match goal with |- _ /\ _ => split end;
  try (split; intros; try reflexivity; try discriminate;
       intuition (try discriminate));
  try (cbn; tauto).

(** X10. The label [continentOf] gives depends on the leading segment of
    the zone id only, and the rules exclude one another: the label is
    Africa, Antarctica, Asia or Europe exactly for the ids that start with
    that name and a slash, Australia exactly for those starting with
    [Australia/] or [Pacific/]; an id starting with [America/] is South
    America when one of the nine tokens occurs in it and North America
    otherwise; every other id is Other.  No other label is ever returned. *)
Theorem continentOf_by_prefix (zone : string) :
  (continentOf zone = "Africa" <-> prefix "Africa/" zone = true) /\
  (continentOf zone = "Antarctica" <-> prefix "Antarctica/" zone = true) /\
  (continentOf zone = "Asia" <-> prefix "Asia/" zone = true) /\
  (continentOf zone = "Australia" <->
     prefix "Australia/" zone = true \/ prefix "Pacific/" zone = true) /\
  (continentOf zone = "Europe" <-> prefix "Europe/" zone = true) /\
  (continentOf zone = "South America" <->
     prefix "America/" zone = true /\
     exists k a b, In k southTokens /\ zone = (a ++ k ++ b)%string) /\
  (continentOf zone = "North America" <->
     prefix "America/" zone = true /\
     forall k a b, In k southTokens -> zone <> (a ++ k ++ b)%string) /\
  (continentOf zone = "Other" <->
     prefix "Africa/" zone = false /\ prefix "Antarctica/" zone = false /\
     prefix "Asia/" zone = false /\ prefix "Australia/" zone = false /\
     prefix "Pacific/" zone = false /\ prefix "Europe/" zone = false /\
     prefix "America/" zone = false) /\
  In (continentOf zone) continentLabels.
Proof.
  destruct (prefix "Africa/" zone) eqn:H1; [continent_case H1|].
  destruct (prefix "Antarctica/" zone) eqn:H2; [continent_case H2|].
  destruct (prefix "Asia/" zone) eqn:H3; [continent_case H3|].
  destruct (prefix "Australia/" zone) eqn:H4; [continent_case H4|].
  destruct (prefix "Pacific/" zone) eqn:H5; [continent_case H5|].
  destruct (prefix "Europe/" zone) eqn:H6; [continent_case H6|].
  destruct (prefix "America/" zone) eqn:H7.
  - apply prefix_app in H7. destruct H7 as [r ->].
    rewrite continentOf_America.
    destruct (existsb (fun k => includes k ("America/" ++ r)%string) southTokens)
      eqn:He.
    + apply existsb_exists in He. destruct He as (k & Hk & Hinc).
      apply includes_spec in Hinc. destruct Hinc as (a & b & Hab).
      repeat match goal with |- _ /\ _ => split end;
        try (split; intros; try discriminate; intuition (try discriminate); fail);
        try (cbn; tauto).
      * split; [intros _|reflexivity]. split; [reflexivity|]. eauto.
      * split; [discriminate|]. intros [_ Hno]. exfalso. exact (Hno k a b Hk Hab).
    + rewrite existsb_false in He.
      repeat match goal with |- _ /\ _ => split end;
        try (split; intros; try discriminate; intuition (try discriminate); fail);
        try (cbn; tauto).
      * split; [discriminate|]. intros (_ & k & a & b & Hk & Hab). exfalso.
        specialize (He k Hk). rewrite Hab in He.
        assert (includes k (a ++ k ++ b) = true) by (apply includes_spec; eauto).
        congruence.
      * split; [intros _|reflexivity]. split; [reflexivity|].
        intros k a b Hk Hab. specialize (He k Hk). rewrite Hab in He.
        assert (includes k (a ++ k ++ b) = true) by (apply includes_spec; eauto).
        congruence.
  - assert (Hother : continentOf zone = "Other").
    { unfold continentOf. rewrite H1, H2, H3, H4, H5, H6, H7. reflexivity. }
    rewrite Hother.
    repeat match goal with |- _ /\ _ => split end;
      try (split; intros; try discriminate; intuition (try discriminate); fail);
      try (cbn; tauto).
Qed.

(** ** Pinned zones *)

Lemma splice1_middle {A : Type} (pre post : list A) (x : A) :
  App.splice1 (List.length pre) (pre ++ x :: post) = pre ++ post.
Proof.
  unfold App.splice1. induction pre as [|a pre IH]; simpl; [reflexivity|].
  f_equal. exact IH.
Qed.

Lemma indexOf_notin x l : ~ In x l -> App.indexOf x l = -1.
Proof.
  induction l as [|y l IH]; simpl; intros Hnot; [reflexivity|].
  destruct (String.eqb_spec y x) as [->|Hne]; [exfalso; apply Hnot; left; reflexivity|].
  rewrite IH by (intros Hin; apply Hnot; right; exact Hin). reflexivity.
Qed.

Lemma indexOf_in x l :
  In x l ->
  exists pre post, l = pre ++ x :: post /\ ~ In x pre /\
                   App.indexOf x l = Z.of_nat (List.length pre).
Proof.
  induction l as [|y l IH]; simpl; intros Hin; [destruct Hin|].
  destruct (String.eqb_spec y x) as [->|Hne].
  - exists [], l. repeat split. intros [].
  - destruct Hin as [Heq|Hin]; [congruence|].
    destruct (IH Hin) as (pre & post & -> & Hpre & Hidx).
    exists (y :: pre), post. split; [reflexivity|]. split.
    + intros [Heq|Hin']; [congruence | exact (Hpre Hin')].
    + rewrite Hidx. destruct (Z.ltb_spec (Z.of_nat (List.length pre)) 0); [lia|].
      cbn [List.length]. lia.
Qed.

Lemma togglePin_in zone prev :
  In zone prev ->
  exists pre post, prev = pre ++ zone :: post /\ ~ In zone pre /\
                   App.togglePin zone prev = pre ++ post.
Proof.
  intros Hin. destruct (indexOf_in zone prev Hin) as (pre & post & -> & Hpre & Hidx).
  exists pre, post. split; [reflexivity|]. split; [exact Hpre|].
  unfold App.togglePin. rewrite Hidx.
  destruct (Z.geb_spec (Z.of_nat (List.length pre)) 0); [|lia].
  rewrite Nat2Z.id. apply splice1_middle.
Qed.

Lemma togglePin_notin zone prev :
  ~ In zone prev -> App.togglePin zone prev = prev ++ [zone].
Proof.
  intros Hnot. unfold App.togglePin. rewrite (indexOf_notin _ _ Hnot). reflexivity.
Qed.

(** X11. [togglePin] unpins the first occurrence of a pinned zone, leaving
    the other pins in their order, and pins an unpinned zone at the end.
    Pinning then unpinning gives the list back; a list without repetition
    stays without repetition, and the zone is pinned afterwards exactly when
    it was not before; no other zone changes its status. *)
Theorem togglePin_flips_one_zone (zone : string) (prev : list string) :
  (In zone prev ->
     exists pre post, prev = pre ++ zone :: post /\ ~ In zone pre /\
                      App.togglePin zone prev = pre ++ post) /\
  (~ In zone prev ->
     App.togglePin zone prev = prev ++ [zone] /\
     App.togglePin zone (App.togglePin zone prev) = prev) /\
  (NoDup prev ->
     NoDup (App.togglePin zone prev) /\
     (In zone (App.togglePin zone prev) <-> ~ In zone prev)) /\
  (forall x, x <> zone -> (In x (App.togglePin zone prev) <-> In x prev)).
Proof.
  split; [apply togglePin_in|]. split.
  - intros Hnot. split; [apply togglePin_notin; exact Hnot|].
    rewrite (togglePin_notin _ _ Hnot).
    destruct (togglePin_in zone (prev ++ [zone])) as (pre & post & Heq & Hpre & ->).
    { apply in_or_app. right; left; reflexivity. }
    assert (Hlen : pre = prev /\ post = []).
    { clear - Heq Hnot Hpre. revert pre Heq Hpre.
      induction prev as [|y prev IH]; intros pre Heq Hpre.
      - destruct pre as [|a pre]; simpl in Heq.
        + injection Heq as <-. auto.
        + injection Heq as <- Heq. destruct pre; discriminate.
      - destruct pre as [|a pre]; simpl in Heq.
        + injection Heq as Hy _. exfalso. apply Hnot. left. exact Hy.
        + injection Heq as <- Heq.
          destruct (IH ltac:(intros H; apply Hnot; right; exact H) pre Heq
                       ltac:(intros H; apply Hpre; right; exact H)) as [-> ->].
          auto. }
    destruct Hlen as [-> ->]. apply app_nil_r.
  - split.
    + intros Hnd. destruct (in_dec string_dec zone prev) as [Hin|Hnot].
      * destruct (togglePin_in zone prev Hin) as (pre & post & -> & Hpre & ->).
        pose proof (NoDup_remove _ _ _ Hnd) as [Hnd' Hnotin].
        split; [exact Hnd'|]. split; [intros H; contradiction|].
        intros H. exfalso. apply H. apply in_or_app. right; left; reflexivity.
      * rewrite (togglePin_notin _ _ Hnot). split.
        -- apply NoDup_app; [exact Hnd | constructor; [intros [] | constructor] |].
           intros a Ha [<-|[]]. exact (Hnot Ha).
        -- split; [intros _; exact Hnot|]. intros _.
           apply in_or_app. right; left; reflexivity.
    + intros x Hx. destruct (in_dec string_dec zone prev) as [Hin|Hnot].
      * destruct (togglePin_in zone prev Hin) as (pre & post & -> & Hpre & ->).
        rewrite !in_app_iff. simpl. split; [tauto|].
        intros [H|[H|H]]; [tauto | congruence | tauto].
      * rewrite (togglePin_notin _ _ Hnot), in_app_iff. simpl. split; [|tauto].
        intros [H|[H|[]]]; [exact H | congruence].
Qed.

Lemma togglePin_flips_one_zone_witness :
  ~ In "Asia/Tokyo" ["UTC"; "Asia/Kolkata"] /\
  App.togglePin "Asia/Tokyo" (App.togglePin "Asia/Tokyo" ["UTC"; "Asia/Kolkata"])
  = ["UTC"; "Asia/Kolkata"] /\
  NoDup ["UTC"; "Asia/Kolkata"] /\
  NoDup (App.togglePin "UTC" ["UTC"; "Asia/Kolkata"]).
Proof.
  assert (Hnot : ~ In "Asia/Tokyo" ["UTC"; "Asia/Kolkata"])
    by (intros [H|[H|[]]]; discriminate).
  assert (Hnd : NoDup ["UTC"; "Asia/Kolkata"]).
  { constructor; [intros [H|[]]; discriminate|].
    constructor; [intros []|constructor]. }
  destruct (togglePin_flips_one_zone "Asia/Tokyo" ["UTC"; "Asia/Kolkata"])
    as (_ & Hback & _).
  destruct (togglePin_flips_one_zone "UTC" ["UTC"; "Asia/Kolkata"])
    as (_ & _ & Hkeep & _).
  split; [exact Hnot|]. split; [apply Hback; exact Hnot|].
  split; [exact Hnd|]. apply Hkeep. exact Hnd.
Defined.

(** ** The zone filter *)

Lemma StronglySorted_filter {A : Type} (R : A -> A -> Prop) (f : A -> bool) l :
  StronglySorted R l -> StronglySorted R (filter f l).
Proof.
  induction 1 as [|a l Hl IH Ha]; simpl; [constructor|].
  destruct (f a); [|exact IH]. constructor; [exact IH|].
  rewrite Forall_forall in *. intros x Hx. apply filter_In in Hx.
  apply Ha. tauto.
Qed.

Lemma filter_split_Permutation {A : Type} (f : A -> bool) l :
  Permutation (filter f l ++ filter (fun x => negb (f x)) l) l.
Proof.
  induction l as [|a l IH]; simpl; [constructor|].
  destruct (f a); simpl.
  - constructor. exact IH.
  - rewrite <- Permutation_middle. constructor. exact IH.
Qed.

Lemma arrayIncludes_In l x : App.arrayIncludes l x = true <-> In x l.
Proof.
  unfold App.arrayIncludes. rewrite existsb_exists. split.
  - intros (y & Hy & Heq). apply String.eqb_eq in Heq. subst. exact Hy.
  - intros Hx. exists x. split; [exact Hx | apply String.eqb_refl].
Qed.

(** The zones that pass the continent buttons and the search box. *)
Lemma filteredZones_blocks {js : App.JSString} zones pinned filterContinent query :
  exists shown,
    App.filteredZones zones pinned filterContinent query =
      filter (fun z => App.arrayIncludes pinned (tz z)) shown ++
      filter (fun z => negb (App.arrayIncludes pinned (tz z))) shown /\
    (forall R, StronglySorted R zones -> StronglySorted R shown) /\
    (NoDup zones -> NoDup shown) /\
    (forall z, In z shown -> In z zones) /\
    (forall z, In z shown ->
       App.toLowerCase filterContinent <> "all" -> cont z = filterContinent) /\
    (App.toLowerCase filterContinent = "all" ->
     App.toLowerCase (App.trim query) = "" -> shown = zones).
Proof.
  unfold App.filteredZones.
  set (byContinent := filter _ zones).
  set (byQuery := if (App.toLowerCase (App.trim query) =? "")%string
                  then byContinent else filter _ byContinent).
  exists byQuery. split; [reflexivity|].
  assert (Hsub : forall z, In z byQuery -> In z byContinent).
  { intros z. subst byQuery.
    destruct (App.toLowerCase (App.trim query) =? "")%string; [tauto|].
    intros Hz. apply filter_In in Hz. tauto. }
  repeat match goal with |- _ /\ _ => split end.
  - intros R HR. subst byQuery byContinent.
    destruct (App.toLowerCase (App.trim query) =? "")%string;
      repeat apply StronglySorted_filter; exact HR.
  - intros Hnd. subst byQuery byContinent.
    destruct (App.toLowerCase (App.trim query) =? "")%string;
      repeat apply NoDup_filter; exact Hnd.
  - intros z Hz. apply Hsub in Hz. subst byContinent.
    apply filter_In in Hz. tauto.
  - intros z Hz Hall. apply Hsub in Hz. subst byContinent.
    apply filter_In in Hz. destruct Hz as [_ Hz].
    destruct (String.eqb_spec (App.toLowerCase filterContinent) "all");
      [contradiction|].
    apply String.eqb_eq in Hz. exact Hz.
  - intros Hall Hq. clear Hsub. subst byQuery byContinent. rewrite Hall, Hq. simpl.
    clear. induction zones as [|z zones IH]; simpl; [reflexivity|]. f_equal. exact IH.
Qed.

(** X12. The filter shows the pinned matches first and the others after
    them, each group in the order of the catalog: nothing is shown twice,
    nothing outside the catalog is shown, the shown list is the concatenation
    of a pinned block and an unpinned block, and when the catalog comes from
    [buildZonesList] both blocks are sorted by offset, then by zone id. *)
Theorem filteredZones_pinned_first {js : App.JSString} {intl : Intl}
        (zones : list ZoneEntry) (pinned : list string)
        (filterContinent query : string) (now : Z) :
  collationOrder -> buildZonesList now = Ok zones ->
  exists pinnedItems others,
    App.filteredZones zones pinned filterContinent query = pinnedItems ++ others /\
    Forall (fun z => In (tz z) pinned) pinnedItems /\
    Forall (fun z => ~ In (tz z) pinned) others /\
    StronglySorted catalogLe pinnedItems /\
    StronglySorted catalogLe others /\
    (forall z, In z (pinnedItems ++ others) -> In z zones) /\
    (NoDup zones -> NoDup (pinnedItems ++ others)).
Proof.
  intros Hcol Hbuild.
  destruct (filteredZones_blocks zones pinned filterContinent query)
    as (shown & Heq & Hsorted & Hnd & Hin & _).
  assert (Hcat : StronglySorted catalogLe zones).
  { apply buildZonesList_inv in Hbuild. destruct Hbuild as (arr & _ & ->).
    apply catalog_sorted. exact Hcol. }
  exists (filter (fun z => App.arrayIncludes pinned (tz z)) shown),
         (filter (fun z => negb (App.arrayIncludes pinned (tz z))) shown).
  split; [exact Heq|].
  repeat match goal with |- _ /\ _ => split end.
  - apply Forall_forall. intros z Hz. apply filter_In in Hz.
    apply arrayIncludes_In. tauto.
  - apply Forall_forall. intros z Hz. apply filter_In in Hz. destruct Hz as [_ Hz].
    rewrite <- arrayIncludes_In. destruct (App.arrayIncludes pinned (tz z));
      [discriminate | congruence].
  - apply StronglySorted_filter, Hsorted, Hcat.
  - apply StronglySorted_filter, Hsorted, Hcat.
  - intros z Hz. apply Hin.
    exact (Permutation_in _
             (filter_split_Permutation
                (fun z => App.arrayIncludes pinned (tz z)) shown) Hz).
  - intros Hz. eapply Permutation_NoDup;
      [symmetry; apply (filter_split_Permutation
                          (fun z => App.arrayIncludes pinned (tz z)) shown)
      | apply Hnd; exact Hz].
Qed.

Lemma filteredZones_pinned_first_witness :
  @collationOrder (FixedHost.host (Some FixedHost.zonesKnown)) /\
  @buildZonesList (FixedHost.host (Some FixedHost.zonesKnown)) FixedHost.sampleNow
  = Ok AsciiStrings.sampleCatalog /\
  map tz (@App.filteredZones AsciiStrings.strings AsciiStrings.sampleCatalog
            ["Asia/Tokyo"; "UTC"] "All" "")
  = [ "UTC"; "Asia/Tokyo"; "America/Bogota"; "Africa/Abidjan"; "Europe/London" ] /\
  exists pinnedItems others,
    @App.filteredZones AsciiStrings.strings AsciiStrings.sampleCatalog
       ["Asia/Tokyo"; "UTC"] "All" "" = pinnedItems ++ others /\
    Forall (fun z => In (tz z) ["Asia/Tokyo"; "UTC"]) pinnedItems.
Proof.
  assert (Hcol : @collationOrder (FixedHost.host (Some FixedHost.zonesKnown)))
    by apply codeUnitCompare_order.
  assert (Hb : @buildZonesList (FixedHost.host (Some FixedHost.zonesKnown))
                 FixedHost.sampleNow = Ok AsciiStrings.sampleCatalog)
    by (vm_compute; reflexivity).
  split; [exact Hcol | split; [exact Hb | split; [vm_compute; reflexivity|]]].
  destruct (@filteredZones_pinned_first AsciiStrings.strings
              (FixedHost.host (Some FixedHost.zonesKnown))
              AsciiStrings.sampleCatalog ["Asia/Tokyo"; "UTC"] "All" ""
              FixedHost.sampleNow Hcol Hb)
    as (a & b & Heq & Hpin & _).
  exists a, b. split; assumption.
Defined.

(** X13. With the continent filter on All and a query that is empty once
    trimmed, every zone of the catalog is shown exactly once; the list is
    the catalog itself when no zone is pinned. *)
Theorem filteredZones_all_shows_whole_catalog {js : App.JSString}
        (zones : list ZoneEntry) (pinned : list string)
        (filterContinent query : string) :
  App.toLowerCase filterContinent = "all" ->
  App.toLowerCase (App.trim query) = "" ->
  Permutation (App.filteredZones zones pinned filterContinent query) zones /\
  ((forall z, In z zones -> ~ In (tz z) pinned) ->
   App.filteredZones zones pinned filterContinent query = zones).
Proof.
  intros Hall Hq.
  destruct (filteredZones_blocks zones pinned filterContinent query)
    as (shown & Heq & _ & _ & _ & _ & Hid).
  rewrite Heq, (Hid Hall Hq).
  split; [apply (filter_split_Permutation
                   (fun z => App.arrayIncludes pinned (tz z)) zones)|].
  intros Hnone.
  assert (Hf : forall z, In z zones -> App.arrayIncludes pinned (tz z) = false).
  { intros z Hz. destruct (App.arrayIncludes pinned (tz z)) eqn:Hinc; [|reflexivity].
    apply arrayIncludes_In in Hinc. exfalso. exact (Hnone z Hz Hinc). }
  clear - Hf. induction zones as [|z zones IH]; simpl; [reflexivity|].
  rewrite (Hf z (or_introl eq_refl)). simpl.
  assert (IH' := IH ltac:(intros x Hx; apply Hf; right; exact Hx)).
  assert (Hno : filter (fun z => App.arrayIncludes pinned (tz z)) zones = []).
  { clear - Hf. induction zones as [|y zones IH]; simpl; [reflexivity|].
    rewrite (Hf y (or_intror (or_introl eq_refl))).
    apply IH. intros x [Hx|Hx]; apply Hf; [left | right; right]; exact Hx. }
  rewrite Hno in *. simpl in *. f_equal. exact IH'.
Qed.

Lemma filteredZones_all_shows_whole_catalog_witness :
  @App.toLowerCase AsciiStrings.strings "All" = "all" /\
  @App.toLowerCase AsciiStrings.strings (@App.trim AsciiStrings.strings "   ") = "" /\
  Permutation (@App.filteredZones AsciiStrings.strings AsciiStrings.sampleCatalog
                 ["Asia/Tokyo"] "All" "   ")
              AsciiStrings.sampleCatalog.
Proof.
  assert (H1 : @App.toLowerCase AsciiStrings.strings "All" = "all") by reflexivity.
  assert (H2 : @App.toLowerCase AsciiStrings.strings
                 (@App.trim AsciiStrings.strings "   ") = "") by reflexivity.
  split; [exact H1 | split; [exact H2|]].
  destruct (@filteredZones_all_shows_whole_catalog AsciiStrings.strings
              AsciiStrings.sampleCatalog ["Asia/Tokyo"] "All" "   " H1 H2)
    as [Hperm _].
  exact Hperm.
Defined.

(** X14. A continent button other than All shows only zones carrying that
    button's label.  No button carries the label Other, so a zone that
    [continentOf] files under Other (an id with none of the seven known
    prefixes, such as UTC) is shown under All only. *)
Theorem continent_button_never_shows_other {js : App.JSString}
        (zones : list ZoneEntry) (pinned : list string)
        (filterContinent query : string) :
  In filterContinent App.continents ->
  App.toLowerCase filterContinent <> "all" ->
  forall z, In z (App.filteredZones zones pinned filterContinent query) ->
    In z zones /\ cont z = filterContinent /\ cont z <> "Other".
Proof.
  intros Hbutton Hnotall z Hz.
  destruct (filteredZones_blocks zones pinned filterContinent query)
    as (shown & Heq & _ & _ & Hin & Hcont & _).
  rewrite Heq in Hz.
  apply (Permutation_in _ (filter_split_Permutation
                             (fun z => App.arrayIncludes pinned (tz z)) shown)) in Hz.
  split; [apply Hin; exact Hz|].
  pose proof (Hcont z Hz Hnotall) as Hc. split; [exact Hc|].
  rewrite Hc. intros Hother. rewrite Hother in Hbutton.
  simpl in Hbutton. repeat (destruct Hbutton as [Hbutton|Hbutton]; [discriminate|]).
  exact Hbutton.
Qed.

Lemma continent_button_never_shows_other_witness :
  In "Europe" App.continents /\
  @App.toLowerCase AsciiStrings.strings "Europe" <> "all" /\
  map tz (@App.filteredZones AsciiStrings.strings AsciiStrings.sampleCatalog
            [] "Europe" "") = ["Europe/London"] /\
  forall z, In z (@App.filteredZones AsciiStrings.strings AsciiStrings.sampleCatalog
                    [] "Europe" "") -> cont z <> "Other".
Proof.
  assert (H1 : In "Europe" App.continents) by (simpl; tauto).
  assert (H2 : @App.toLowerCase AsciiStrings.strings "Europe" <> "all")
    by (vm_compute; discriminate).
  split; [exact H1 | split; [exact H2 | split; [vm_compute; reflexivity|]]].
  intros z Hz.
  apply (@continent_button_never_shows_other AsciiStrings.strings
           AsciiStrings.sampleCatalog [] "Europe" "" H1 H2 z Hz).
Defined.

(** ** The zone card *)

Lemma getParts_fields {intl : Intl} timeZoneName date zone parts :
  ZoneCard.getParts timeZoneName date zone = Ok parts ->
  exists p, formatToParts zone date = Ok p /\
            ZoneCard.hour24 parts = hour p /\
            ZoneCard.hour12 parts = ZoneCard.h12Of (hour p) /\
            ZoneCard.minute parts = minute p /\
            ZoneCard.second parts = second p /\
            ZoneCard.isPM parts = (hour p >=? 12).
Proof.
  unfold ZoneCard.getParts. intros H. inv_bind H.
  destruct a as [y mo d hh mi ss]. injection H as <-. exists (mkParts y mo d hh mi ss).
  simpl. auto 10.
Qed.

(** X15. The 12-hour reading of [getParts] loses nothing for hours 0..23:
    [hour12] lies in 1..12 and, with [isPM], gives [hour24] back; midnight
    reads 12 AM and noon 12 PM.  Where the host prints midnight as hour 24,
    the card reads it as 12 PM, like noon. *)
Theorem getParts_twelve_hour_reading {intl : Intl}
        (timeZoneName : string -> Z -> string) (date : Z) (zone : string)
        (parts : ZoneCard.Parts) :
  ZoneCard.getParts timeZoneName date zone = Ok parts ->
  (0 <= ZoneCard.hour24 parts <= 23 ->
     1 <= ZoneCard.hour12 parts <= 12 /\
     ZoneCard.hour24 parts =
       ZoneCard.hour12 parts mod 12 + (if ZoneCard.isPM parts then 12 else 0)) /\
  (ZoneCard.hour24 parts = 0 ->
     ZoneCard.hour12 parts = 12 /\ ZoneCard.isPM parts = false) /\
  (ZoneCard.hour24 parts = 12 ->
     ZoneCard.hour12 parts = 12 /\ ZoneCard.isPM parts = true) /\
  (ZoneCard.hour24 parts = 24 ->
     ZoneCard.hour12 parts = 12 /\ ZoneCard.isPM parts = true).
Proof.
  intros H. apply getParts_fields in H.
  destruct H as (p & _ & -> & -> & _ & _ & ->).
  unfold ZoneCard.h12Of.
  repeat match goal with |- _ /\ _ => split end.
  - intros Hh. rewrite Z.rem_mod_nonneg by lia.
    destruct (Z.eqb_spec (hour p mod 12) 0) as [H0|H0];
      destruct (Z.geb_spec (hour p) 12);
      Z.to_euclidean_division_equations; lia.
  - intros ->. split; reflexivity.
  - intros ->. split; reflexivity.
  - intros ->. split; reflexivity.
Qed.

Lemma getParts_twelve_hour_reading_witness :
  @ZoneCard.getParts (FixedHost.host None) (fun _ _ => "IST") 1764075600000
                     "Asia/Kolkata"
  = Ok (ZoneCard.mkCardParts 18 6 30 0 true "IST") /\
  (0 <= 18 <= 23) /\
  18 = 6 mod 12 + 12.
Proof.
  assert (Hp : @ZoneCard.getParts (FixedHost.host None) (fun _ _ => "IST")
                 1764075600000 "Asia/Kolkata"
               = Ok (ZoneCard.mkCardParts 18 6 30 0 true "IST"))
    by (vm_compute; reflexivity).
  assert (Hh : 0 <= 18 <= 23) by lia.
  split; [exact Hp | split; [exact Hh|]].
  destruct (@getParts_twelve_hour_reading (FixedHost.host None) _ _ _ _ Hp)
    as (Hrt & _).
  destruct (Hrt Hh) as [_ Hback]. exact Hback.
Defined.

(** X16. The working-hour highlight of the card is the membership test of
    the meeting panel for the window 9 to 17, whatever work window the user
    has entered: the two agree on every hour 0..23 exactly when the window
    entered is 9 to 17. *)
Theorem card_highlight_is_window_9_to_17 :
  (forall lm, ZoneCard.isWorkingHour (h lm) = working lm 9 17) /\
  (forall workStart workEnd,
     (forall hh, 0 <= hh <= 23 ->
        ZoneCard.isWorkingHour hh = working {| h := hh; m := 0 |} workStart workEnd)
     <-> workStart = 9 /\ workEnd = 17).
Proof.
  assert (Hsame : forall lm, ZoneCard.isWorkingHour (h lm) = working lm 9 17).
  { intros lm. unfold ZoneCard.isWorkingHour, working.
    rewrite andb_false_r, orb_false_r. reflexivity. }
  split; [exact Hsame|]. intros ws we. split.
  - intros Hall.
    assert (Hat : forall hh, 0 <= hh <= 23 ->
              ((9 <= hh < 17) <-> (ws <= hh < we))).
    { intros hh Hh. specialize (Hall hh Hh).
      assert (Hl : ZoneCard.isWorkingHour hh = true <-> 9 <= hh < 17).
      { unfold ZoneCard.isWorkingHour. rewrite andb_true_iff, Z.geb_le, Z.ltb_lt. lia. }
      assert (Hr : working {| h := hh; m := 0 |} ws we = true <-> ws <= hh < we).
      { rewrite working_spec. simpl. lia. }
      rewrite <- Hl, <- Hr, Hall. reflexivity. }
    pose proof (Hat 8 ltac:(lia)). pose proof (Hat 9 ltac:(lia)).
    pose proof (Hat 16 ltac:(lia)). pose proof (Hat 17 ltac:(lia)). lia.
  - intros [-> ->] hh _. apply (Hsame {| h := hh; m := 0 |}).
Qed.

(** X17. The subtitle of the card does not show the sign of a negative
    offset: for a positive offset the text is [UTC+] followed by hours, a
    colon and two-digit minutes, and for the opposite offset it is the same
    text without the [+]. *)
Theorem offsetLabel_drops_minus_sign (offset : Z) :
  0 < offset ->
  ZoneCard.offsetLabel offset =
    ("UTC+" ++ ZoneCard.stringOfZ (offset / 60) ++ ":" ++
     ZoneCard.padStart 2 "0" (ZoneCard.stringOfZ (offset mod 60)))%string /\
  ZoneCard.offsetLabel (- offset) =
    ("UTC" ++ ZoneCard.stringOfZ (offset / 60) ++ ":" ++
     ZoneCard.padStart 2 "0" (ZoneCard.stringOfZ (offset mod 60)))%string.
Proof.
  intros Hpos. unfold ZoneCard.offsetLabel.
  rewrite Z.abs_opp, (Z.abs_eq offset) by lia.
  rewrite (Z.rem_mod_nonneg offset 60) by lia.
  destruct (Z.geb_spec offset 0); [|lia].
  destruct (Z.geb_spec (- offset) 0); [lia|].
  split; reflexivity.
Qed.

Lemma offsetLabel_drops_minus_sign_witness :
  0 < 300 /\
  ZoneCard.offsetLabel 300 = "UTC+5:00" /\
  ZoneCard.offsetLabel (- 300) = "UTC5:00".
Proof.
  assert (H : 0 < 300) by lia. split; [exact H|].
  destruct (offsetLabel_drops_minus_sign 300 H) as [Hp Hn].
  split.
  - rewrite Hp. vm_compute. reflexivity.
  - etransitivity; [exact Hn|]. vm_compute. reflexivity.
Defined.

(** ** An unknown zone in the panel *)

(** X18. The panel has no recovery from a zone the host does not know: if
    formatting throws for [localZone], or for [zone] while [localZone] is
    known, the whole computation throws that error at its first slot; no
    panel and no partial slot list is produced. *)
Theorem unknown_zone_aborts_panel {intl : Intl} (zone localZone : string)
        (workStart workEnd now : Z) (e : exn) :
  (forall ms, formatToParts localZone ms = Throw e) \/
  (knownZone localZone /\ forall ms, formatToParts zone ms = Throw e) ->
  MeetingPanel.MeetingPanel zone localZone workStart workEnd now = Throw e /\
  ~ exists p, MeetingPanel.MeetingPanel zone localZone workStart workEnd now = Ok p.
Proof.
  intros Hcase.
  assert (Hthrow : MeetingPanel.MeetingPanel zone localZone workStart workEnd now
                   = Throw e).
  { unfold MeetingPanel.MeetingPanel, slots. cbn [slotsLoop].
    change (0 <? 96) with true. cbv iota. unfold slotAt, localHourMinuteFromUtcMs.
    destruct Hcase as [Hl|[Hl Hz]].
    - rewrite Hl. reflexivity.
    - destruct (Hl (utcDayStartOf now + 0 * 15 * 60 * 1000)) as [pl ->].
      cbn [bind]. rewrite Hz. reflexivity. }
  split; [exact Hthrow|]. intros [p Hp]. congruence.
Qed.

Lemma unknown_zone_aborts_panel_witness :
  (forall ms, @formatToParts (FixedHost.host None) "Mars/Olympus_Mons" ms
              = Throw (RangeError "Mars/Olympus_Mons")) /\
  @MeetingPanel.MeetingPanel (FixedHost.host None) "UTC" "Mars/Olympus_Mons" 9 17
                             FixedHost.sampleNow
  = Throw (RangeError "Mars/Olympus_Mons").
Proof.
  assert (H : forall ms, @formatToParts (FixedHost.host None) "Mars/Olympus_Mons" ms
                         = Throw (RangeError "Mars/Olympus_Mons"))
    by (intros ms; reflexivity).
  split; [exact H|].
  apply (@unknown_zone_aborts_panel (FixedHost.host None) "UTC" "Mars/Olympus_Mons"
           9 17 FixedHost.sampleNow (RangeError "Mars/Olympus_Mons")).
  left. exact H.
Defined.
